(** * Field normalisation of the car-listing cleaner

    Shallow embedding of [cleaning/clean_cars_final.py]: the three per-cell
    parsers [clean_year], [clean_mileage_range], [clean_price] and the
    table pipeline [run_cleaning].

    Conventions of the embedding.
    - Python text is a [string]; each character stands for the code point
      of the same number (0..255).  In that range [\d] is the class
      ['0'..'9'], and [str.isspace], [str.lower] are the tables below.
    - A Python call that may raise returns a [result]; [try/except] is
      [try_except].
    - [int(text)] is the unbounded conversion of the language reference.
    - A floating cell is carried by the text [str()] prints for it. *)

From Stdlib Require Import ZArith Lia Ascii String DecimalString DecimalPos.
From stdpp Require Import base option list gmap strings.

Local Open Scope string_scope.
Local Open Scope Z_scope.

(** ** Exceptions *)

Inductive exn := ValueError | IndexError | KeyError | TypeError.

Inductive result (A : Type) :=
  | Ok (a : A)
  | Raise (e : exn).
Arguments Ok {A} a.
Arguments Raise {A} e.

Global Instance result_ret : MRet result := λ A a, Ok a.
Global Instance result_bind : MBind result := λ A B f m,
  match m with Ok a => f a | Raise e => Raise e end.

(** [try: body except: handler] with a bare [except]. *)
Definition try_except {A} (body : result A) (handler : A) : result A :=
  match body with Ok a => Ok a | Raise _ => Ok handler end.

(** ** Characters *)

Definition is_digit (c : ascii) : bool :=
  let n := N_of_ascii c in ((48 <=? n) && (n <=? 57))%N.

Definition is_space (c : ascii) : bool :=
  let n := N_of_ascii c in
  (((9 <=? n) && (n <=? 13)) || ((28 <=? n) && (n <=? 32))
   || (n =? 133) || (n =? 160))%N.

Definition lower_char (c : ascii) : ascii :=
  let n := N_of_ascii c in
  if (((65 <=? n) && (n <=? 90))
      || ((192 <=? n) && (n <=? 222) && negb (n =? 215)))%N
  then ascii_of_N (n + 32) else c.

(** ** Text primitives *)

(** [s.lower()] *)
Fixpoint lower (s : string) : string :=
  match s with
  | "" => ""
  | String c s' => String (lower_char c) (lower s')
  end.

Fixpoint lstrip (s : string) : string :=
  match s with
  | "" => ""
  | String c s' => if is_space c then lstrip s' else s
  end.

Fixpoint rstrip (s : string) : string :=
  match s with
  | "" => ""
  | String c s' =>
      match rstrip s' with
      | "" => if is_space c then "" else String c ""
      | r => String c r
      end
  end.

(** [s.strip()] *)
Definition strip (s : string) : string := rstrip (lstrip s).

(** [s.endswith(suffix)] *)
Fixpoint endswith (suffix s : string) : bool :=
  if String.eqb s suffix then true
  else match s with
       | "" => false
       | String _ s' => endswith suffix s'
       end.

(** [s[:-k]] for a positive [k] *)
Definition drop_last (k : nat) (s : string) : string :=
  String.substring 0 (String.length s - k) s.

(** [sub in s] *)
Fixpoint contains (sub s : string) : bool :=
  if String.prefix sub s then true
  else match s with
       | "" => false
       | String _ s' => contains sub s'
       end.

(** [s.split(sep)] for a one-character separator *)
Fixpoint split (sep : ascii) (s : string) : list string :=
  match s with
  | "" => [""]
  | String c s' =>
      if Ascii.eqb c sep then "" :: split sep s'
      else match split sep s' with
           | h :: t => String c h :: t
           | [] => [String c ""]
           end
  end.

(** [l[i]], negative indices counting from the end *)
Definition getitem {A} (l : list A) (i : Z) : result A :=
  let n := Z.of_nat (length l) in
  let j := if i <? 0 then i + n else i in
  if (0 <=? j) && (j <? n)
  then match l !! Z.to_nat j with
       | Some x => Ok x
       | None => Raise IndexError
       end
  else Raise IndexError.

(** [re.sub(r'[^\d]', '', s)] *)
Fixpoint remove_non_digits (s : string) : string :=
  match s with
  | "" => ""
  | String c s' =>
      if is_digit c then String c (remove_non_digits s')
      else remove_non_digits s'
  end.

(** [\d{4}] tried at the start of [s] *)
Definition match_d4 (s : string) : option string :=
  match s with
  | String a (String b (String c (String d _))) =>
      if is_digit a && is_digit b && is_digit c && is_digit d
      then Some (String a (String b (String c (String d ""))))
      else None
  | _ => None
  end.

(** [re.search(r'\d{4}', s)], giving [match.group(0)] *)
Fixpoint search_d4 (s : string) : option string :=
  match match_d4 s with
  | Some g => Some g
  | None =>
      match s with
      | "" => None
      | String _ s' => search_d4 s'
      end
  end.

(** ** [int(text)] *)

(** Underscores of a literal: each one sits between two digits. *)
Fixpoint underscores_ok (prev_digit : bool) (s : string) : bool :=
  match s with
  | "" => prev_digit
  | String c s' =>
      if Ascii.eqb c "_" then prev_digit && underscores_ok false s'
      else underscores_ok true s'
  end.

Fixpoint remove_underscores (s : string) : string :=
  match s with
  | "" => ""
  | String c s' =>
      if Ascii.eqb c "_" then remove_underscores s'
      else String c (remove_underscores s')
  end.

Definition int_digits (s : string) : result Z :=
  if underscores_ok false s then
    match NilZero.uint_of_string (remove_underscores s) with
    | Some u => Ok (Z.of_uint u)
    | None => Raise ValueError
    end
  else Raise ValueError.

Definition py_int (s : string) : result Z :=
  match strip s with
  | String "+" r => int_digits r
  | String "-" r => n ← int_digits r; Ok (- n)
  | t => int_digits t
  end.

(** ** Cells *)

Inductive cell :=
  | CStr (s : string)
  | CInt (z : Z)
  | CFloat (repr : string)
  | CNaN.

(** [str(val)] *)
Definition py_str (val : cell) : string :=
  match val with
  | CStr s => s
  | CInt z => NilZero.string_of_int (Z.to_int z)
  | CFloat repr => repr
  | CNaN => "nan"
  end.

(** ** The three parsers *)

Definition clean_year (val : cell) : result (option Z) :=
  let s := strip (lower (py_str val)) in
  match search_d4 s with
  | Some g => n ← py_int g; Ok (Some n)
  | None => Ok None
  end.

Definition clean_mileage_range (val : cell) : result Z :=
  let s := strip (lower (py_str val)) in
  s ← (if contains "-" s then getitem (split "-" s) 0 else Ok s);
  let clean_s := remove_non_digits s in
  try_except (py_int clean_s) 0.

Definition clean_price (val : cell) : result (option Z) :=
  let s := strip (lower (py_str val)) in
  s ← (if endswith ".0" s then Ok (drop_last 2 s)
       else if endswith ".00" s then Ok (drop_last 3 s)
       else if contains "," s then
         tail ← getitem (split "," s) (-1);
         if (String.length tail =? 2)%nat then getitem (split "," s) 0
         else Ok s
       else Ok s);
  let clean_s := remove_non_digits s in
  try_except (n ← py_int clean_s; Ok (Some n)) None.

(** ** Reference readings used by the statements *)

Fixpoint all_digits (s : string) : bool :=
  match s with
  | "" => true
  | String c s' => is_digit c && all_digits s'
  end.

(** The number a string of decimal digits denotes. *)
Definition decimal_value (s : string) : Z :=
  match NilEmpty.uint_of_string s with
  | Some u => Z.of_uint u
  | None => 0
  end.

(** The text before the first occurrence of [sep] (all of it if none). *)
Fixpoint before_first (sep : ascii) (s : string) : string :=
  match s with
  | "" => ""
  | String c s' =>
      if Ascii.eqb c sep then "" else String c (before_first sep s')
  end.

Fixpoint has_char (x : ascii) (s : string) : bool :=
  match s with
  | "" => false
  | String c s' => Ascii.eqb c x || has_char x s'
  end.

(** The text after the last occurrence of [sep] (all of it if none). *)
Fixpoint after_last (sep : ascii) (s : string) : string :=
  match s with
  | "" => ""
  | String c s' =>
      if has_char sep s' then after_last sep s'
      else if Ascii.eqb c sep then s' else s
  end.

(** The text before the last occurrence of [sep] (all of it if none). *)
Fixpoint before_last (sep : ascii) (s : string) : string :=
  match s with
  | "" => ""
  | String c s' =>
      if has_char sep s' then String c (before_last sep s')
      else if Ascii.eqb c sep then "" else s
  end.

(** Four decimal digits stand at offset [i] of [s]. *)
Definition digits4_at (s : string) (i : nat) : bool :=
  let w := String.substring i 4 s in
  (String.length w =? 4)%nat && all_digits w.

(** *** The parsers as the specification words them *)

Definition parse_digits (d : string) : option Z :=
  match d with
  | "" => None
  | _ => Some (decimal_value d)
  end.

(** Price, step 3 keeping what precedes the FINAL comma. *)
Definition price_spec (text : string) : option Z :=
  let t := strip (lower text) in
  let t1 :=
    if endswith ".0" t then drop_last 2 t
    else if endswith ".00" t then drop_last 3 t
    else if has_char "," t && (String.length (after_last "," t) =? 2)%nat
         then before_last "," t
    else t in
  parse_digits (remove_non_digits t1).

(** Price, step 3 keeping what precedes the FIRST comma. *)
Definition price_first_comma (text : string) : option Z :=
  let t := strip (lower text) in
  let t1 :=
    if endswith ".0" t then drop_last 2 t
    else if endswith ".00" t then drop_last 3 t
    else if has_char "," t && (String.length (after_last "," t) =? 2)%nat
         then before_first "," t
    else t in
  parse_digits (remove_non_digits t1).

Definition mileage_spec (text : string) : Z :=
  let t := strip (lower text) in
  let t1 := if has_char "-" t then before_first "-" t else t in
  match parse_digits (remove_non_digits t1) with
  | Some n => n
  | None => 0
  end.

(** ** The table

    A [DataFrame] keeps the column names in table order and one mapping
    from column name to cell per row; a name without a cell reads as the
    missing value.  [read_csv] gives every column a name of its own. *)

Record DataFrame := {
  columns : list string;
  rows : list (gmap string cell);
}.

(** What [to_csv] writes: the header line and the records, cell by cell
    in header order. *)
Record Csv := {
  header : list string;
  records : list (list cell);
}.

Definition cell_at (r : gmap string cell) (c : string) : cell :=
  default CNaN (r !! c).

Definition is_na (v : cell) : bool :=
  match v with CNaN => true | _ => false end.

(** A value returned by a parser, as the column stores it. *)
Definition store_opt (o : option Z) : cell :=
  match o with Some n => CInt n | None => CNaN end.

Global Instance result_fmap : FMap result := λ A B f m,
  match m with Ok a => Ok (f a) | Raise e => Raise e end.

(** [df.drop(columns=labels)] *)
Definition drop (labels : list string) (df : DataFrame) : result DataFrame :=
  if forallb (λ l, bool_decide (l ∈ columns df)) labels then
    Ok {| columns := filter (λ c, c ∉ labels) (columns df);
          rows := map (λ r, foldr delete r labels) (rows df) |}
  else Raise KeyError.

(** [df[c]] *)
Definition get_column (df : DataFrame) (c : string) : result (list cell) :=
  if bool_decide (c ∈ columns df)
  then Ok (map (λ r, cell_at r c) (rows df))
  else Raise KeyError.

(** [series.apply(f)] *)
Definition series_apply (f : cell → result cell) (s : list cell)
  : result (list cell) := mapM f s.

(** [df[c] = series] *)
Definition set_column (df : DataFrame) (c : string) (s : list cell)
  : result DataFrame :=
  if (length s =? length (rows df))%nat then
    Ok {| columns := if bool_decide (c ∈ columns df) then columns df
                     else columns df ++ [c];
          rows := zip_with (λ r v, <[c := v]> r) (rows df) s |}
  else Raise ValueError.

(** [df.dropna(subset=labels)] *)
Definition dropna (labels : list string) (df : DataFrame) : result DataFrame :=
  if forallb (λ l, bool_decide (l ∈ columns df)) labels then
    Ok {| columns := columns df;
          rows := filter (λ r, forallb (λ l, negb (is_na (cell_at r l))) labels)
                         (rows df) |}
  else Raise KeyError.

(** [series > n] and [series < n]; the missing value compares False,
    text against a number raises. *)
Definition cell_gt (n : Z) (v : cell) : result bool :=
  match v with
  | CInt z => Ok (n <? z)
  | CNaN => Ok false
  | CStr _ | CFloat _ => Raise TypeError
  end.

Definition cell_lt (n : Z) (v : cell) : result bool :=
  match v with
  | CInt z => Ok (z <? n)
  | CNaN => Ok false
  | CStr _ | CFloat _ => Raise TypeError
  end.

Definition series_gt (s : list cell) (n : Z) : result (list bool) :=
  mapM (cell_gt n) s.
Definition series_lt (s : list cell) (n : Z) : result (list bool) :=
  mapM (cell_lt n) s.

(** [a & b] on boolean series *)
Definition series_and (a b : list bool) : list bool := zip_with andb a b.

Fixpoint select_by {A} (mask : list bool) (l : list A) : list A :=
  match mask, l with
  | b :: mask', x :: l' =>
      if b then x :: select_by mask' l' else select_by mask' l'
  | _, _ => []
  end.

(** [df[mask]] *)
Definition select_rows (df : DataFrame) (mask : list bool) : DataFrame :=
  {| columns := columns df; rows := select_by mask (rows df) |}.

(** [next(generator, default)] over the generated list *)
Definition next_or {A} (generated : list A) (default : A) : A :=
  match generated with
  | x :: _ => x
  | [] => default
  end.

(** [df.rename(columns=mapping)] followed by [to_csv] *)
Definition rename_and_save (mapping : gmap string string) (df : DataFrame)
  : Csv :=
  {| header := map (λ c, default c (mapping !! c)) (columns df);
     records := map (λ r, map (cell_at r) (columns df)) (rows df) |}.

Definition drop_cols : list string := ["Sector"; "Location"; "sector"; "location"].

Definition is_price_name (c : string) : bool :=
  contains "price" (lower c) || contains "prix" (lower c).
Definition is_mileage_name (c : string) : bool :=
  contains "mileage" (lower c) || contains "km" (lower c).
Definition is_year_name (c : string) : bool :=
  contains "year" (lower c) || contains "annee" (lower c).

(** [run_cleaning], from the frame [read_csv] has loaded to the table
    handed to [to_csv]. *)
Definition run_cleaning (df : DataFrame) : result Csv :=
  df ← drop (filter (λ c, c ∈ columns df) drop_cols) df;
  let price_col := next_or (filter is_price_name (columns df)) "Price" in
  s ← get_column df price_col;
  s ← series_apply (λ v, store_opt <$> clean_price v) s;
  df ← set_column df price_col s;
  df ← dropna [price_col] df;
  a ← get_column df price_col;
  a ← series_gt a 5000;
  b ← get_column df price_col;
  b ← series_lt b 3000000;
  let df := select_rows df (series_and a b) in
  let mileage_col := next_or (filter is_mileage_name (columns df)) "Mileage" in
  s ← get_column df mileage_col;
  s ← series_apply (λ v, CInt <$> clean_mileage_range v) s;
  df ← set_column df mileage_col s;
  let year_col := next_or (filter is_year_name (columns df)) "Year" in
  s ← get_column df year_col;
  s ← series_apply (λ v, store_opt <$> clean_year v) s;
  df ← set_column df year_col s;
  df ← dropna [year_col] df;
  Ok (rename_and_save
        (<["Fuel" := "fuel_type"]> (<["Model" := "model"]>
          (<["Brand" := "brand"]> (<[year_col := "year"]>
            (<[mileage_col := "mileage_km"]> (<[price_col := "price"]> ∅))))))
        df).

(** ** The column roles as the specification lists them *)

Inductive role := Price | Mileage | Year.

Definition synonyms (r : role) : list string :=
  match r with
  | Price => ["price"; "prix"]
  | Mileage => ["mileage"; "km"]
  | Year => ["year"; "annee"]
  end.

Definition fallback (r : role) : string :=
  match r with
  | Price => "Price"
  | Mileage => "Mileage"
  | Year => "Year"
  end.

Definition matches_role (r : role) (c : string) : bool :=
  existsb (λ syn, contains syn (lower c)) (synonyms r).

(** The resolver of [run_cleaning], one generator expression per role. *)
Definition resolve (r : role) (cols : list string) : string :=
  match r with
  | Price => next_or (filter is_price_name cols) "Price"
  | Mileage => next_or (filter is_mileage_name cols) "Mileage"
  | Year => next_or (filter is_year_name cols) "Year"
  end.

(** The comparisons on a column that holds parsed values. *)
Definition gt_bool (n : Z) (v : cell) : bool :=
  match v with CInt z => n <? z | _ => false end.
Definition lt_bool (n : Z) (v : cell) : bool :=
  match v with CInt z => z <? n | _ => false end.

(** ** Row-wise reading of the pipeline *)

(** The value a call returned ([d] stands in for a call that raised). *)
Definition returned {A} (d : A) (r : result A) : A :=
  match r with Ok a => a | Raise _ => d end.

Definition norm_price (pc : string) (r : gmap string cell) : gmap string cell :=
  <[pc := store_opt (returned None (clean_price (cell_at r pc)))]> r.
Definition norm_mileage (mc : string) (r : gmap string cell) : gmap string cell :=
  <[mc := CInt (returned 0 (clean_mileage_range (cell_at r mc)))]> r.
Definition norm_year (yc : string) (r : gmap string cell) : gmap string cell :=
  <[yc := store_opt (returned None (clean_year (cell_at r yc)))]> r.

Definition known (c : string) (r : gmap string cell) : bool :=
  negb (is_na (cell_at r c)).

Definition in_range (c : string) (r : gmap string cell) : bool :=
  match cell_at r c with
  | CInt z => (5000 <? z) && (z <? 3000000)
  | _ => false
  end.

(** The rows after each statement of [run_cleaning], in program order. *)
Definition stage_rows (pc mc yc : string) (l : list (gmap string cell))
  : list (gmap string cell) :=
  filter (λ r, known yc r)
    (map (norm_year yc)
      (map (norm_mileage mc)
        (filter (λ r, in_range pc r)
          (filter (λ r, known pc r) (map (norm_price pc) l))))).

(** The [rename] dictionary, keys in the order of the literal. *)
Definition rename_mapping (pc mc yc : string) : gmap string string :=
  <["Fuel" := "fuel_type"]> (<["Model" := "model"]>
    (<["Brand" := "brand"]> (<[yc := "year"]>
      (<[mc := "mileage_km"]> (<[pc := "price"]> ∅))))).

(** The columns left by the [DROP USELESS] step. *)
Definition kept_columns (cols : list string) : list string :=
  filter (λ c, c ∉ drop_cols) cols.

(** The rule of the record filter, on a row of the input table. *)
Definition retained (pc yc : string) (r : gmap string cell) : bool :=
  match clean_price (cell_at r pc), clean_year (cell_at r yc) with
  | Ok (Some p), Ok (Some _) => (5000 <? p) && (p <? 3000000)
  | _, _ => false
  end.

(** The record written for a retained row: the three parsed fields in
    their columns, every other kept column as it was read. *)
Definition canonical_record (cols : list string) (pc mc yc : string)
    (r : gmap string cell) : list cell :=
  map (cell_at (norm_year yc (norm_mileage mc (norm_price pc r)))) cols.

(** The name a kept column is written under. *)
Definition canonical_name (pc mc yc c : string) : string :=
  if decide ("Fuel" = c) then "fuel_type"
  else if decide ("Model" = c) then "model"
  else if decide ("Brand" = c) then "brand"
  else if decide (yc = c) then "year"
  else if decide (mc = c) then "mileage_km"
  else if decide (pc = c) then "price"
  else c.

(** The six field names of a canonical record. *)
Definition canonical_fields : list string :=
  ["price"; "mileage_km"; "year"; "brand"; "model"; "fuel_type"].

Fixpoint count_char (x : ascii) (s : string) : nat :=
  match s with
  | "" => 0
  | String c s' => (if Ascii.eqb c x then 1 else 0) + count_char x s'
  end.

(** *** Sample tables *)

Definition listing (price mileage year colour : string) : gmap string cell :=
  <["Color" := CStr colour]> (<["Sector" := CStr "auto"]>
    (<["Year" := CStr year]> (<["Mileage" := CStr mileage]>
      (<["Price" := CStr price]> ∅)))).

Definition sample_columns : list string :=
  ["Price"; "Sector"; "Mileage"; "Year"; "Color"].

Definition sample_table : DataFrame :=
  {| columns := sample_columns;
     rows := [ listing "80 000 DH" "100 000 - 110 000" "2015" "red";
               listing "3000" "" "2019" "blue";
               listing "120000.00" "85,000 km" "1980 ou plus ancien" "grey" ] |}.

(** *** The bound columns of a table *)

Definition price_col (df : DataFrame) : string :=
  resolve Price (kept_columns (columns df)).
Definition mileage_col (df : DataFrame) : string :=
  resolve Mileage (kept_columns (columns df)).
Definition year_col (df : DataFrame) : string :=
  resolve Year (kept_columns (columns df)).

(** Input contract: each role is bound to a column of the table, and the
    three bound columns are different. *)
Definition roles_bound (df : DataFrame) : Prop :=
  price_col df ∈ kept_columns (columns df)
  ∧ mileage_col df ∈ kept_columns (columns df)
  ∧ year_col df ∈ kept_columns (columns df)
  ∧ price_col df ≠ mileage_col df
  ∧ price_col df ≠ year_col df
  ∧ mileage_col df ≠ year_col df.

Global Instance roles_bound_dec df : Decision (roles_bound df).
Proof. unfold roles_bound. apply _. Defined.

Definition sample_output : Csv :=
  {| header := ["price"; "mileage_km"; "year"; "Color"];
     records := [ [CInt 80000; CInt 100000; CInt 2015; CStr "red"];
                  [CInt 120000; CInt 85000; CInt 1980; CStr "grey"] ] |}.

(** *** Positional value of decimal text *)

Definition digit_value (c : ascii) : Z := Z.of_N (N_of_ascii c) - 48.

(** Horner's rule over the characters, most significant first. *)
Fixpoint horner (acc : Z) (s : string) : Z :=
  match s with
  | "" => acc
  | String c s' => horner (10 * acc + digit_value c) s'
  end.

Fixpoint horner_uint (acc : Z) (u : Decimal.uint) : Z :=
  match u with
  | Decimal.Nil => acc
  | Decimal.D0 l => horner_uint (10 * acc) l
  | Decimal.D1 l => horner_uint (10 * acc + 1) l
  | Decimal.D2 l => horner_uint (10 * acc + 2) l
  | Decimal.D3 l => horner_uint (10 * acc + 3) l
  | Decimal.D4 l => horner_uint (10 * acc + 4) l
  | Decimal.D5 l => horner_uint (10 * acc + 5) l
  | Decimal.D6 l => horner_uint (10 * acc + 6) l
  | Decimal.D7 l => horner_uint (10 * acc + 7) l
  | Decimal.D8 l => horner_uint (10 * acc + 8) l
  | Decimal.D9 l => horner_uint (10 * acc + 9) l
  end.

(** Text that [lower] and [strip] leave alone: no character is a space or
    changes when lower-cased. *)
Fixpoint plain (s : string) : bool :=
  match s with
  | "" => true
  | String c s' =>
      negb (is_space c) && Ascii.eqb (lower_char c) c && plain s'
  end.

(** The check run over every year from 0 to 9999. *)
Definition year_reparse_ok (n : nat) : bool :=
  let y := Z.of_nat n in
  match clean_year (CInt y) with
  | Ok (Some v) => (1000 <=? y) && (v =? y)
  | Ok None => y <? 1000
  | Raise _ => false
  end.

(** ** The phone scraper ([gsmarena_scraper.py]) *)

(** The exceptions of the scraper: [.get] on a value that is no dict,
    iteration over a value that cannot be iterated (a [TypeError]), a
    failed request, a response body that is not JSON. *)
Inductive scrape_exn :=
  | AttributeError
  | NotIterable
  | RequestError
  | JSONDecodeError.

Inductive outcome (A : Type) :=
  | Returns (a : A)
  | Raises (e : scrape_exn).
Arguments Returns {A} a.
Arguments Raises {A} e.

Global Instance outcome_ret : MRet outcome := λ A a, Returns a.
Global Instance outcome_bind : MBind outcome := λ A B f m,
  match m with Returns a => f a | Raises e => Raises e end.

(** [[a-z0-9\-]] *)
Definition slug_char (c : ascii) : bool :=
  let n := N_of_ascii c in
  (((97 <=? n) && (n <=? 122)) || ((48 <=? n) && (n <=? 57)) || (n =? 45))%N.

(** [re.sub(r"\s+", "-", s)]: every maximal run of spaces becomes one
    dash. *)
Fixpoint dash_spaces (s : string) : string :=
  match s with
  | "" => ""
  | String c s' =>
      if is_space c then
        match s' with
        | String c' _ =>
            if is_space c' then dash_spaces s'
            else String "-" (dash_spaces s')
        | "" => "-"
        end
      else String c (dash_spaces s')
  end.

(** [re.sub(r"[^a-z0-9\-]", "", s)] *)
Fixpoint remove_non_slug (s : string) : string :=
  match s with
  | "" => ""
  | String c s' =>
      if slug_char c then String c (remove_non_slug s')
      else remove_non_slug s'
  end.

Definition slugify_phone_name (name : string) : string :=
  let name := lower (strip name) in
  let name := dash_spaces name in
  remove_non_slug name.

(** A decoded JSON document.  [JNull] is Python's [None]; a dict keeps its
    keys in insertion order, each key once; a float is carried by the text
    [repr] prints for it.  JSON text is carried as it is and never looked
    into. *)
#[warnings="-register-all"]
Inductive json :=
  | JNull
  | JBool (b : bool)
  | JInt (z : Z)
  | JFloat (repr : string)
  | JStr (s : string)
  | JList (items : list json)
  | JDict (fields : list (string * json)).

(** [d[k]] if present *)
Fixpoint dict_get (k : string) (d : list (string * json)) : option json :=
  match d with
  | [] => None
  | (k', v) :: d' => if String.eqb k' k then Some v else dict_get k d'
  end.

(** [d[k] = v]: a known key keeps its place, a new one goes last *)
Fixpoint dict_set (k : string) (v : json) (d : list (string * json))
  : list (string * json) :=
  match d with
  | [] => [(k, v)]
  | (k', v') :: d' =>
      if String.eqb k' k then (k', v) :: d' else (k', v') :: dict_set k v d'
  end.

(** [d.update(other)] *)
Definition dict_update (d other : list (string * json)) : list (string * json) :=
  foldl (λ acc kv, dict_set kv.1 kv.2 acc) d other.

(** [{k1: v1, ...}] *)
Definition dict_literal (kvs : list (string * json)) : list (string * json) :=
  dict_update [] kvs.

(** [o.get(k, dflt)] *)
Definition py_get (o : json) (k : string) (dflt : json) : outcome json :=
  match o with
  | JDict d => Returns (default dflt (dict_get k d))
  | _ => Raises AttributeError
  end.

(** Truth value of a document, as [or] and [not] test it. *)
Definition truthy (v : json) : bool :=
  match v with
  | JNull => false
  | JBool b => b
  | JInt z => negb (z =? 0)
  | JFloat r => negb (String.eqb r "0.0" || String.eqb r "-0.0")
  | JStr s => negb (String.eqb s "")
  | JList l => match l with [] => false | _ => true end
  | JDict d => match d with [] => false | _ => true end
  end.

(** The items of [for s in v] *)
Definition py_iter (v : json) : outcome (list json) :=
  match v with
  | JList l => Returns l
  | JDict d => Returns (map (λ kv, JStr kv.1) d)
  | JStr s => Returns (map (λ c, JStr (String c "")) (list_ascii_of_string s))
  | _ => Raises NotIterable
  end.

(** The euro sign, default currency of an offer. *)
Definition euro : string := "€".

Definition parse_specs (specs_json : json) : outcome (list (string * json)) :=
  match specs_json with
  | JNull => Returns []
  | _ =>
      let data := [] in
      v ← py_get specs_json "brand" (JStr "");
      let data := dict_set "brand" v data in
      v ← py_get specs_json "name" (JStr "");
      let data := dict_set "model" v data in
      h ← py_get specs_json "hardware" (JDict []);
      v ← py_get h "chipset" (JStr "");
      let data := dict_set "soc" v data in
      h ← py_get specs_json "hardware" (JDict []);
      v ← py_get h "ram" (JStr "");
      let data := dict_set "ram" v data in
      h ← py_get specs_json "hardware" (JDict []);
      v ← py_get h "storage" (JStr "");
      let data := dict_set "storage" v data in
      b ← py_get specs_json "battery" (JDict []);
      v ← py_get b "capacity" (JStr "");
      let data := dict_set "battery_capacity" v data in
      screen ← py_get specs_json "screen" (JDict []);
      v ← py_get screen "size" (JStr "");
      let data := dict_set "screen_size" v data in
      v ← py_get screen "type" (JStr "");
      let data := dict_set "screen_type" v data in
      v ← py_get screen "resolution" (JStr "");
      let data := dict_set "screen_resolution" v data in
      Returns data
  end.

(** The body of the loop of [parse_prices]: the entry of one offer. *)
Definition price_entry (s : json) : outcome (list (string * json)) :=
  name ← py_get s "name" (JStr "");
  shop ← py_get s "shop" name;
  country ← py_get s "country" (JStr "");
  price ← py_get s "price" (JStr "");
  currency ← py_get s "currency" (JStr euro);
  link ← py_get s "link" (JStr "");
  url ← py_get s "url" link;
  Returns (dict_literal [("shop", shop); ("country", country);
                         ("price", price); ("currency", currency);
                         ("url", url)]).

Definition parse_prices (prices_json : json)
  : outcome (list (list (string * json))) :=
  match prices_json with
  | JNull => Returns []
  | _ =>
      a ← py_get prices_json "stores" (JList []);
      stores ← (if truthy a then Returns a
                else py_get prices_json "prices" (JList []));
      items ← py_iter stores;
      mapM price_entry items
  end.

(** What [requests.get] hands back: the status code and what [.json()]
    gives. *)
Record response := {
  status_code : Z;
  resp_json : outcome json;
}.

Definition BASE_JSON_URL : string := "https://www.kimovil.com/_json".

Section Network.
(** [requests.get], which may raise. *)
Variable http_get : string → outcome response.

Definition get_phone_prices (phone_name : string) : outcome json :=
  let slug := slugify_phone_name phone_name in
  let url := BASE_JSON_URL +:+ "/" +:+ slug +:+ "_prices_deals.json" in
  resp ← http_get url;
  if negb (status_code resp =? 200) then Returns JNull
  else resp_json resp.

Definition get_phone_specs (phone_name : string) : outcome json :=
  let slug := slugify_phone_name phone_name in
  let url := BASE_JSON_URL +:+ "/" +:+ slug +:+ ".json" in
  resp ← http_get url;
  if negb (status_code resp =? 200) then Returns JNull
  else resp_json resp.

(** [scrape_kimovil_phone], up to the list of rows handed to
    [pd.DataFrame]. *)
Definition scrape_kimovil_phone (phone_name : string)
  : outcome (list (list (string * json))) :=
  specs_json ← get_phone_specs phone_name;
  prices_json ← get_phone_prices phone_name;
  specs ← parse_specs specs_json;
  prices_list ← parse_prices prices_json;
  match prices_list with
  | [] => Returns [specs]
  | _ => Returns (map (λ p, dict_update p specs) prices_list)
  end.
End Network.

(** The field names of the scraper's rows. *)
Definition spec_keys : list string :=
  ["brand"; "model"; "soc"; "ram"; "storage"; "battery_capacity";
   "screen_size"; "screen_type"; "screen_resolution"].
Definition price_keys : list string :=
  ["shop"; "country"; "price"; "currency"; "url"].

Fixpoint all_chars (p : ascii → bool) (s : string) : bool :=
  match s with
  | "" => true
  | String c s' => p c && all_chars p s'
  end.

(** A field that [.get(k, {})] can be followed by another [.get]: absent,
    or an object. *)
Definition object_or_absent (k : string) (d : list (string * json)) : bool :=
  match dict_get k d with
  | None | Some (JDict _) => true
  | Some _ => false
  end.

(** The offers [parse_prices] iterates over. *)
Definition chosen_offers (d : list (string * json)) : json :=
  let a := default (JList []) (dict_get "stores" d) in
  if truthy a then a else default (JList []) (dict_get "prices" d).

Definition is_object (v : json) : bool :=
  match v with JDict _ => true | _ => false end.

(** The value stored for a top-level field, and for a field of a nested
    object, with the empty text as default. *)
Definition field (d : list (string * json)) (k : string) : json :=
  default (JStr "") (dict_get k d).

Definition nested_field (d : list (string * json)) (o k : string) : json :=
  match dict_get o d with
  | Some (JDict g) => field g k
  | _ => JStr ""
  end.

(** The nine fields of a specification row. *)
Definition spec_row (d : list (string * json)) : list (string * json) :=
  [ ("brand", field d "brand");
    ("model", field d "name");
    ("soc", nested_field d "hardware" "chipset");
    ("ram", nested_field d "hardware" "ram");
    ("storage", nested_field d "hardware" "storage");
    ("battery_capacity", nested_field d "battery" "capacity");
    ("screen_size", nested_field d "screen" "size");
    ("screen_type", nested_field d "screen" "type");
    ("screen_resolution", nested_field d "screen" "resolution") ].

Definition specs_ok (j : json) : bool :=
  match j with
  | JNull => true
  | JDict d =>
      object_or_absent "hardware" d && object_or_absent "battery" d
      && object_or_absent "screen" d
  | _ => false
  end.

(** The five fields of the entry of an offer. *)
Definition entry_row (e : list (string * json)) : list (string * json) :=
  [ ("shop", default (field e "name") (dict_get "shop" e));
    ("country", field e "country");
    ("price", field e "price");
    ("currency", default (JStr euro) (dict_get "currency" e));
    ("url", default (field e "link") (dict_get "url" e)) ].

Definition entry_of (item : json) : list (string * json) :=
  match item with
  | JDict e => entry_row e
  | _ => []
  end.

(** A table whose first column matches both the price and the mileage
    synonyms. *)
Definition shared_table : DataFrame :=
  {| columns := ["Prix (km)"; "Annee"];
     rows := [ <["Annee" := CStr "2015"]>
                 (<["Prix (km)" := CStr "80 000"]> ∅) ] |}.

Definition shared_output : Csv :=
  {| header := ["mileage_km"; "year"];
     records := [[CInt 80000; CInt 2015]] |}.



(** *** The year as the specification words it

    Runs are maximal: the scan collects each stretch of decimal digits
    whole, and returns the first stretch that has exactly four of them. *)
Fixpoint exact_run4 (cur : string) (s : string) : option string :=
  match s with
  | "" => if (String.length cur =? 4)%nat then Some cur else None
  | String c s' =>
      if is_digit c then exact_run4 (cur +:+ String c "") s'
      else if (String.length cur =? 4)%nat then Some cur
      else exact_run4 "" s'
  end.

Definition year_exact_run (text : string) : option Z :=
  option_map decimal_value (exact_run4 "" (strip (lower text))).

(** No stretch of digits of [s] is longer than four, [n] digits standing
    just before [s]. *)
Fixpoint runs_within4 (n : nat) (s : string) : bool :=
  match s with
  | "" => true
  | String c s' =>
      if is_digit c then (n <? 4)%nat && runs_within4 (S n) s'
      else runs_within4 0 s'
  end.

(** * Properties of the text primitives *)

Ltac char_cases c :=
  destruct c as [[] [] [] [] [] [] [] []]; vm_compute; try congruence; auto.

Lemma digit_not_space c : is_digit c = true → is_space c = false.
Proof. char_cases c. Qed.

Lemma digit_lower c : is_digit c = true → lower_char c = c.
Proof. char_cases c. Qed.

Lemma digit_neq c x :
  is_digit c = true → is_digit x = false → Ascii.eqb c x = false.
Proof.
  intros Hc Hx. destruct (Ascii.eqb_spec c x) as [->|]; congruence.
Qed.

Lemma digit_uint c u :
  is_digit c = true → ∃ u', uint_of_char c (Some u) = Some u'.
Proof. char_cases c; eauto. Qed.

Lemma uint_digit c o u : uint_of_char c o = Some u → is_digit c = true.
Proof. destruct o; [|done]. char_cases c. Qed.

Lemma bind_Ok {A B} (f : A → result B) a : (Ok a ≫= f) = f a.
Proof. reflexivity. Qed.

Lemma all_digits_uint s :
  all_digits s = true → ∃ u, NilEmpty.uint_of_string s = Some u.
Proof.
  induction s as [|c s IH]; simpl; [eauto|].
  intros [Hc Hs]%andb_prop. destruct (IH Hs) as [u ->].
  by apply digit_uint.
Qed.

Lemma uint_all_digits s u :
  NilEmpty.uint_of_string s = Some u → all_digits s = true.
Proof.
  revert u; induction s as [|c s IH]; simpl; [done|]. intros u H.
  rewrite (uint_digit _ _ _ H). simpl.
  destruct (NilEmpty.uint_of_string s); [eauto|done].
Qed.

Lemma decimal_value_nonneg s : 0 <= decimal_value s.
Proof.
  unfold decimal_value. destruct (NilEmpty.uint_of_string s); [|lia].
  unfold Z.of_uint. lia.
Qed.

Lemma remove_non_digits_all_digits s : all_digits (remove_non_digits s) = true.
Proof.
  induction s as [|c s IH]; simpl; [done|].
  destruct (is_digit c) eqn:Hc; simpl; [by rewrite Hc|done].
Qed.

Lemma remove_non_digits_id s : all_digits s = true → remove_non_digits s = s.
Proof.
  induction s as [|c s IH]; simpl; [done|].
  intros [-> Hs]%andb_prop. by rewrite IH.
Qed.

Lemma lower_digits s : all_digits s = true → lower s = s.
Proof.
  induction s as [|c s IH]; simpl; [done|].
  intros [Hc Hs]%andb_prop. by rewrite IH, digit_lower.
Qed.

Lemma lstrip_digits s : all_digits s = true → lstrip s = s.
Proof.
  destruct s as [|c s]; simpl; [done|].
  intros [Hc _]%andb_prop. by rewrite digit_not_space.
Qed.

Lemma rstrip_digits s : all_digits s = true → rstrip s = s.
Proof.
  induction s as [|c s IH]; simpl; [done|].
  intros [Hc Hs]%andb_prop. rewrite IH by done.
  destruct s; [by rewrite digit_not_space|done].
Qed.

Lemma strip_digits s : all_digits s = true → strip s = s.
Proof. intros H. unfold strip. by rewrite lstrip_digits, rstrip_digits. Qed.

Lemma has_char_digits x s :
  all_digits s = true → is_digit x = false → has_char x s = false.
Proof.
  intros Hs Hx. induction s as [|c s IH]; simpl in *; [done|].
  apply andb_prop in Hs as [Hc Hs]. by rewrite (digit_neq c x), IH.
Qed.

Lemma underscores_ok_digits b s :
  all_digits s = true → underscores_ok b s = match s with "" => b | _ => true end.
Proof.
  revert b; induction s as [|c s IH]; intros b; simpl; [done|].
  intros [Hc Hs]%andb_prop. rewrite (digit_neq c "_") by done.
  rewrite IH by done. by destruct s.
Qed.

Lemma remove_underscores_digits s :
  all_digits s = true → remove_underscores s = s.
Proof.
  induction s as [|c s IH]; simpl; [done|].
  intros [Hc Hs]%andb_prop. rewrite (digit_neq c "_") by done. by rewrite IH.
Qed.

(** [int] succeeds on every non-empty string of digits. *)
Lemma py_int_digits s :
  all_digits s = true → s ≠ "" → py_int s = Ok (decimal_value s).
Proof.
  intros Hs Hne. unfold py_int. rewrite strip_digits by done.
  assert (int_digits s = Ok (decimal_value s)) as Hi.
  { unfold int_digits, decimal_value.
    rewrite underscores_ok_digits, remove_underscores_digits by done.
    destruct (all_digits_uint s Hs) as [u Hu].
    destruct s; [done|]. unfold NilZero.uint_of_string. by rewrite Hu. }
  destruct s as [|c s]; [done|].
  simpl in Hs. apply andb_prop in Hs as [Hc _].
  pose proof (digit_neq c "+" Hc eq_refl) as H1.
  pose proof (digit_neq c "-" Hc eq_refl) as H2.
  destruct (Ascii.eqb_spec c "+"); [done|].
  destruct (Ascii.eqb_spec c "-"); [done|].
  clear H1 H2. revert Hi.
  destruct c as [[] [] [] [] [] [] [] []]; try done.
Qed.

Lemma py_int_empty : py_int "" = Raise ValueError.
Proof. reflexivity. Qed.

(** Conversion of what is left after the non-digits are removed. *)
Lemma py_int_remove_non_digits s :
  py_int (remove_non_digits s) =
    match parse_digits (remove_non_digits s) with
    | Some n => Ok n
    | None => Raise ValueError
    end.
Proof.
  destruct (remove_non_digits s) as [|c r] eqn:E; [done|].
  rewrite <- E. rewrite py_int_digits.
  - by rewrite E.
  - apply remove_non_digits_all_digits.
  - by rewrite E.
Qed.

(** * Splitting and indexing *)

Lemma contains_char x s : contains (String x "") s = has_char x s.
Proof.
  induction s as [|c s IH]; simpl; [done|].
  destruct (ascii_dec x c) as [->|Hne].
  - rewrite Ascii.eqb_refl. by destruct s.
  - rewrite IH. destruct (Ascii.eqb_spec c x); [congruence|done].
Qed.

Lemma split_before_first sep s :
  ∃ t, split sep s = before_first sep s :: t.
Proof.
  induction s as [|c s [t IH]]; simpl; [eauto|].
  destruct (Ascii.eqb c sep); [eauto|]. rewrite IH. eauto.
Qed.

Lemma after_last_no_sep sep s : has_char sep s = false → after_last sep s = s.
Proof.
  induction s as [|c s IH]; simpl; [done|].
  intros [-> ->]%orb_false_elim. done.
Qed.

Lemma split_no_sep sep s : has_char sep s = false → split sep s = [s].
Proof.
  induction s as [|c s IH]; simpl; [done|].
  intros [-> Hs]%orb_false_elim. by rewrite IH.
Qed.

Lemma split_has_sep sep s :
  has_char sep s = true → ∃ h u t, split sep s = h :: u :: t.
Proof.
  induction s as [|c s IH]; simpl; [done|].
  destruct (Ascii.eqb c sep); simpl.
  - intros _. destruct (split_before_first sep s) as [t ->]. eauto.
  - intros (h & u & t & ->)%IH. eauto.
Qed.

Lemma split_after_last sep s : last (split sep s) = Some (after_last sep s).
Proof.
  induction s as [|c s IH]; simpl; [done|].
  destruct (has_char sep s) eqn:Hs.
  - destruct (split_has_sep _ _ Hs) as (h & u & t & E). rewrite E in *.
    by destruct (Ascii.eqb c sep).
  - rewrite (split_no_sep _ _ Hs). by destruct (Ascii.eqb c sep).
Qed.

Lemma getitem_first {A} (x : A) l : getitem (x :: l) 0 = Ok x.
Proof.
  reflexivity.
Qed.

Lemma getitem_last {A} (l : list A) x :
  last l = Some x → getitem l (-1) = Ok x.
Proof.
  intros Hl. unfold getitem. rewrite last_lookup in Hl.
  assert (length l ≠ 0%nat) by (destruct l; done).
  replace (-1 <? 0) with true by done.
  replace (Z.to_nat (-1 + Z.of_nat (length l))) with (Nat.pred (length l)) by lia.
  rewrite Hl.
  destruct (0 <=? -1 + Z.of_nat (length l)) eqn:E1; [|lia].
  destruct (-1 + Z.of_nat (length l) <? Z.of_nat (length l)) eqn:E2; [done|lia].
Qed.

(** * The parsers against their reference readings *)

Lemma price_tail s :
  try_except (n ← py_int (remove_non_digits s); Ok (Some n)) None
  = Ok (parse_digits (remove_non_digits s)).
Proof.
  rewrite py_int_remove_non_digits.
  by destruct (parse_digits (remove_non_digits s)).
Qed.

Lemma mileage_tail s :
  try_except (py_int (remove_non_digits s)) 0
  = Ok (match parse_digits (remove_non_digits s) with
        | Some n => n
        | None => 0
        end).
Proof.
  rewrite py_int_remove_non_digits.
  by destruct (parse_digits (remove_non_digits s)).
Qed.

(** What [clean_price] computes: step 3 cuts at the first comma. *)
Lemma clean_price_eq val :
  clean_price val = Ok (price_first_comma (py_str val)).
Proof.
  unfold clean_price, price_first_comma.
  set (t := strip (lower (py_str val))).
  destruct (endswith ".0" t); [by rewrite bind_Ok, price_tail|].
  destruct (endswith ".00" t); [by rewrite bind_Ok, price_tail|].
  rewrite contains_char.
  destruct (has_char "," t); simpl andb; [|by rewrite bind_Ok, price_tail].
  rewrite (getitem_last _ _ (split_after_last "," t)), bind_Ok.
  destruct (String.length (after_last "," t) =? 2)%nat.
  - destruct (split_before_first "," t) as [r ->].
    by rewrite getitem_first, bind_Ok, price_tail.
  - by rewrite bind_Ok, price_tail.
Qed.

Lemma before_first_no_sep sep s :
  has_char sep s = false → before_first sep s = s.
Proof.
  induction s as [|c s IH]; simpl; [done|].
  intros [-> Hs]%orb_false_elim. by rewrite IH.
Qed.

Lemma clean_mileage_range_eq val :
  clean_mileage_range val = Ok (mileage_spec (py_str val)).
Proof.
  unfold clean_mileage_range, mileage_spec.
  set (t := strip (lower (py_str val))).
  rewrite contains_char. destruct (has_char "-" t).
  - destruct (split_before_first "-" t) as [r ->].
    by rewrite getitem_first, bind_Ok, mileage_tail.
  - by rewrite bind_Ok, mileage_tail.
Qed.

Lemma mileage_spec_nonneg text : 0 <= mileage_spec text.
Proof.
  unfold mileage_spec, parse_digits.
  destruct (remove_non_digits _); [lia|apply decimal_value_nonneg].
Qed.

Lemma parse_digits_nonneg d n : parse_digits d = Some n → 0 <= n.
Proof.
  destruct d; [done|]. intros [= <-]. apply decimal_value_nonneg.
Qed.

(** *** The year search *)

Lemma substring_0_0 s : String.substring 0 0 s = "".
Proof. by destruct s. Qed.

Lemma match_d4_spec s :
  match_d4 s = if digits4_at s 0 then Some (String.substring 0 4 s) else None.
Proof.
  unfold digits4_at.
  destruct s as [|a [|b [|c [|d r]]]]; simpl; try done;
    rewrite ?andb_false_r; try done.
  rewrite substring_0_0. simpl. by rewrite andb_true_r, !andb_assoc.
Qed.

Lemma digits4_at_nil i : digits4_at "" i = false.
Proof. by destruct i. Qed.

Lemma digits4_at_S c s i : digits4_at (String c s) (S i) = digits4_at s i.
Proof. reflexivity. Qed.

Lemma search_d4_spec s :
  match search_d4 s with
  | Some g =>
      ∃ i, digits4_at s i = true
           ∧ (∀ j, (j < i)%nat → digits4_at s j = false)
           ∧ g = String.substring i 4 s
  | None => ∀ i, digits4_at s i = false
  end.
Proof.
  induction s as [|c s IH].
  - simpl. apply digits4_at_nil.
  - cbn [search_d4]. rewrite match_d4_spec.
    destruct (digits4_at (String c s) 0) eqn:H0.
    + exists 0%nat. split_and!; [done|lia|done].
    + destruct (search_d4 s) as [g|].
      * destruct IH as (i & Hi & Hmin & ->). exists (S i).
        split_and!; [done| |done].
        intros [|j] Hj; [done|]. rewrite digits4_at_S. apply Hmin. lia.
      * intros [|i]; [done|]. by rewrite digits4_at_S.
Qed.

Lemma digits4_at_int s i :
  digits4_at s i = true →
  py_int (String.substring i 4 s) = Ok (decimal_value (String.substring i 4 s)).
Proof.
  unfold digits4_at. intros [Hlen Hd]%andb_prop.
  apply py_int_digits; [done|]. intros E. by rewrite E in Hlen.
Qed.

Lemma clean_year_eq val :
  let t := strip (lower (py_str val)) in
  (∃ i, digits4_at t i = true
        ∧ (∀ j, (j < i)%nat → digits4_at t j = false)
        ∧ clean_year val = Ok (Some (decimal_value (String.substring i 4 t))))
  ∨ ((∀ i, digits4_at t i = false) ∧ clean_year val = Ok None).
Proof.
  intros t. unfold clean_year. fold t.
  pose proof (search_d4_spec t) as H.
  destruct (search_d4 t) as [g|].
  - destruct H as (i & Hi & Hmin & ->). left. exists i.
    split_and!; [done..|]. by rewrite digits4_at_int.
  - by right.
Qed.

(** * The table operations *)

Lemma mapM_Ok {A B} (f : A → result B) (g : A → B) l :
  Forall (λ x, f x = Ok (g x)) l → mapM f l = Ok (map g l).
Proof.
  induction 1 as [|x l Hx _ IH]; [done|].
  change (mapM f (x :: l)) with (y ← f x; k ← mapM f l; mret (y :: k)).
  by rewrite Hx, bind_Ok, IH.
Qed.

Lemma get_column_ok df c :
  c ∈ columns df → get_column df c = Ok (map (λ r, cell_at r c) (rows df)).
Proof. intros H. unfold get_column. by rewrite bool_decide_eq_true_2. Qed.

Lemma zip_with_map_diag {A B C} (f : A → B → C) (g : A → B) l :
  zip_with f l (map g l) = map (λ x, f x (g x)) l.
Proof. induction l as [|x l IH]; [done|]. simpl. by rewrite IH. Qed.

Lemma set_column_ok cols rs c (g : gmap string cell → cell) :
  c ∈ cols →
  set_column {| columns := cols; rows := rs |} c (map g rs)
  = Ok {| columns := cols; rows := map (λ r, <[c := g r]> r) rs |}.
Proof.
  intros H. unfold set_column. cbn [columns rows].
  rewrite length_map, Nat.eqb_refl, bool_decide_eq_true_2 by done.
  by rewrite zip_with_map_diag.
Qed.

Lemma dropna_ok df c :
  c ∈ columns df →
  dropna [c] df
  = Ok {| columns := columns df; rows := filter (λ r, known c r) (rows df) |}.
Proof.
  intros H. unfold dropna. simpl forallb.
  rewrite bool_decide_eq_true_2 by done. simpl. do 2 f_equal.
  apply list_filter_iff. intros r. unfold known. by rewrite andb_true_r.
Qed.

Lemma select_by_map {A} (p : A → bool) (l : list A) :
  select_by (map p l) l = filter (λ x, p x) l.
Proof.
  induction l as [|x l IH]; [done|]. simpl. rewrite IH, filter_cons.
  destruct (p x); by rewrite ?decide_True, ?decide_False by done.
Qed.

Lemma filter_ext_in {A} (P1 P2 : A → Prop)
    `{!∀ x, Decision (P1 x), !∀ x, Decision (P2 x)} (l : list A) :
  (∀ x, x ∈ l → P1 x ↔ P2 x) → filter P1 l = filter P2 l.
Proof.
  induction l as [|x l IH]; [done|]. intros Hext.
  rewrite !filter_cons, IH by (intros; apply Hext; by right).
  apply decide_ext, Hext. by left.
Qed.

Lemma drop_ok df :
  drop (filter (λ c, c ∈ columns df) drop_cols) df
  = Ok {| columns := kept_columns (columns df);
          rows := map (λ r, foldr delete r
                              (filter (λ c, c ∈ columns df) drop_cols))
                      (rows df) |}.
Proof.
  unfold drop.
  assert (forallb (λ l, bool_decide (l ∈ columns df))
            (filter (λ c, c ∈ columns df) drop_cols) = true) as ->.
  { apply forallb_forall. intros l Hl%list_elem_of_In%list_elem_of_filter.
    apply bool_decide_eq_true_2. tauto. }
  do 2 f_equal. unfold kept_columns.
  apply filter_ext_in. intros c Hc. rewrite list_elem_of_filter. tauto.
Qed.

(** Dropped labels are not among the kept columns, so their removal
    leaves every kept cell as it was. *)
Lemma cell_at_dropped (cols : list string) r c :
  c ∈ kept_columns cols →
  cell_at (foldr delete r (filter (λ c, c ∈ cols) drop_cols)) c = cell_at r c.
Proof.
  intros [Hc _]%list_elem_of_filter. unfold cell_at. f_equal.
  assert (∀ ls, (∀ l, l ∈ ls → l ∈ drop_cols) →
                foldr delete r ls !! c = r !! c) as Hgen.
  { induction ls as [|l ls IH]; [done|]. intros Hsub. simpl.
    rewrite lookup_delete_ne.
    - apply IH. intros; apply Hsub; by right.
    - intros ->. apply Hc, Hsub. by left. }
  apply Hgen. by intros l [_ ?]%list_elem_of_filter.
Qed.

(** *** The parsers return *)

Lemma clean_price_returned v :
  clean_price v = Ok (returned None (clean_price v)).
Proof. by rewrite clean_price_eq. Qed.

Lemma clean_mileage_range_returned v :
  clean_mileage_range v = Ok (returned 0 (clean_mileage_range v)).
Proof. by rewrite clean_mileage_range_eq. Qed.

Lemma clean_year_returned v :
  clean_year v = Ok (returned None (clean_year v)).
Proof.
  destruct (clean_year_eq v) as [(i & _ & _ & ->)|[_ ->]]; done.
Qed.

Lemma series_apply_ok {A} (rs : list (gmap string cell)) c
    (f : cell → result A) (d : A) (st : A → cell) :
  (∀ v, f v = Ok (returned d (f v))) →
  series_apply (λ v, st <$> f v) (map (λ r, cell_at r c) rs)
  = Ok (map (λ r, st (returned d (f (cell_at r c)))) rs).
Proof.
  intros Hf. unfold series_apply.
  rewrite (mapM_Ok _ (λ v, st (returned d (f v)))).
  - by rewrite map_map.
  - apply Forall_forall. intros v _. by rewrite (Hf v) at 1.
Qed.

Lemma series_cmp_ok (rs : list (gmap string cell)) c n :
  Forall (λ r, ∃ o, cell_at r c = store_opt o) rs →
  series_gt (map (λ r, cell_at r c) rs) n
    = Ok (map (λ r, gt_bool n (cell_at r c)) rs)
  ∧ series_lt (map (λ r, cell_at r c) rs) n
    = Ok (map (λ r, lt_bool n (cell_at r c)) rs).
Proof.
  intros H. unfold series_gt, series_lt.
  rewrite (mapM_Ok _ (gt_bool n)), (mapM_Ok _ (lt_bool n)), !map_map; [done|..];
    apply Forall_forall; intros v (r & <- & Hr)%list_elem_of_In%in_map_iff;
    apply list_elem_of_In in Hr;
    rewrite Forall_forall in H; destruct (H r Hr) as [[z|] ->]; done.
Qed.

Lemma series_and_map {A} (p q : A → bool) l :
  series_and (map p l) (map q l) = map (λ x, p x && q x) l.
Proof. induction l as [|x l IH]; [done|]. simpl. by rewrite <- IH. Qed.

Lemma cell_at_insert r c v : cell_at (<[c := v]> r) c = v.
Proof. unfold cell_at. by rewrite lookup_insert_eq. Qed.

Lemma cell_at_insert_ne r c c' v : c ≠ c' → cell_at (<[c := v]> r) c' = cell_at r c'.
Proof. intros. unfold cell_at. by rewrite lookup_insert_ne. Qed.

Lemma in_range_bools c r :
  gt_bool 5000 (cell_at r c) && lt_bool 3000000 (cell_at r c) = in_range c r.
Proof. unfold in_range. by destruct (cell_at r c). Qed.

(** [run_cleaning] statement by statement. *)
Lemma run_cleaning_stages df :
  let cols := kept_columns (columns df) in
  let pc := resolve Price cols in
  let mc := resolve Mileage cols in
  let yc := resolve Year cols in
  pc ∈ cols → mc ∈ cols → yc ∈ cols →
  run_cleaning df =
    Ok (rename_and_save (rename_mapping pc mc yc)
          {| columns := cols;
             rows := stage_rows pc mc yc
                       (map (λ r, foldr delete r
                                    (filter (λ c, c ∈ columns df) drop_cols))
                            (rows df)) |}).
Proof.
  intros cols pc mc yc Hpc Hmc Hyc.
  unfold run_cleaning. rewrite drop_ok, bind_Ok. cbn [columns rows].
  fold cols. change (next_or (filter is_price_name cols) "Price") with pc.
  cbv zeta.
  set (rows0 := map _ (rows df)).
  rewrite get_column_ok, bind_Ok by done. cbn [columns rows].
  rewrite (series_apply_ok rows0 pc clean_price None store_opt clean_price_returned), bind_Ok.
  rewrite (set_column_ok cols rows0 pc
             (λ r, store_opt (returned None (clean_price (cell_at r pc))))), bind_Ok by done.
  cbn [columns rows].
  rewrite dropna_ok, bind_Ok by done. cbn [columns rows].
  rewrite get_column_ok, bind_Ok by done. cbn [columns rows].
  fold (norm_price pc).
  set (rows1 := filter _ (map (norm_price pc) rows0)).
  assert (Forall (λ r, ∃ o, cell_at r pc = store_opt o) rows1) as Hst.
  { apply Forall_forall. intros r [_ Hr]%list_elem_of_filter.
    apply list_elem_of_In, in_map_iff in Hr as (r0 & <- & _).
    unfold norm_price. rewrite cell_at_insert. eauto. }
  destruct (series_cmp_ok rows1 pc 5000 Hst) as [-> _].
  rewrite !bind_Ok.
  destruct (series_cmp_ok rows1 pc 3000000 Hst) as [_ ->].
  rewrite bind_Ok.
  rewrite series_and_map. unfold select_rows. cbn [columns rows].
  rewrite select_by_map.
  fold cols. change (next_or (filter is_mileage_name cols) "Mileage") with mc.
  rewrite get_column_ok, bind_Ok by done. cbn [columns rows].
  set (rows2 := filter _ rows1).
  rewrite (series_apply_ok rows2 mc clean_mileage_range 0 CInt clean_mileage_range_returned), bind_Ok.
  rewrite (set_column_ok cols rows2 mc
             (λ r, CInt (returned 0 (clean_mileage_range (cell_at r mc))))), bind_Ok by done.
  cbn [columns rows].
  change (next_or (filter is_year_name cols) "Year") with yc.
  rewrite get_column_ok, bind_Ok by done. cbn [columns rows].
  fold (norm_mileage mc).
  set (rows3 := map (norm_mileage mc) rows2).
  rewrite (series_apply_ok rows3 yc clean_year None store_opt clean_year_returned), bind_Ok.
  rewrite (set_column_ok cols rows3 yc
             (λ r, store_opt (returned None (clean_year (cell_at r yc))))), bind_Ok by done.
  cbn [columns rows].
  rewrite dropna_ok, bind_Ok by done. cbn [columns rows].
  do 3 f_equal. unfold stage_rows. fold (norm_year yc).
  subst rows3 rows2 rows1. do 3 f_equal.
  apply list_filter_iff. intros r. by rewrite in_range_bools.
Qed.

(** * The pipeline row by row *)

Lemma filter_map_comm {A B} (P : B → Prop) `{!∀ x, Decision (P x)}
    (f : A → B) (l : list A) :
  filter P (map f l) = map f (filter (λ x, P (f x)) l).
Proof.
  induction l as [|x l IH]; [done|]. simpl. rewrite !filter_cons, IH.
  by destruct (decide (P (f x))).
Qed.

Lemma retained_spec pc yc r :
  retained pc yc r = true ↔
  ∃ p y, clean_price (cell_at r pc) = Ok (Some p) ∧ 5000 < p < 3000000
         ∧ clean_year (cell_at r yc) = Ok (Some y).
Proof.
  unfold retained. split.
  - destruct (clean_price _) as [[p|]|]; try done.
    destruct (clean_year _) as [[y|]|]; try done.
    intros [?%Z.ltb_lt ?%Z.ltb_lt]%andb_prop. exists p, y. split_and!; done.
  - intros (p & y & -> & [??] & ->).
    apply andb_true_intro. split; by apply Z.ltb_lt.
Qed.

(** With the three roles on three different columns, the stages amount to
    one test on the row as it was read, followed by the three parsers. *)
Lemma stage_rows_distinct pc mc yc l :
  pc ≠ mc → pc ≠ yc → mc ≠ yc →
  stage_rows pc mc yc l
  = map (λ r, norm_year yc (norm_mileage mc (norm_price pc r)))
        (filter (λ r, retained pc yc r) l).
Proof.
  intros Hpm Hpy Hmy. unfold stage_rows.
  rewrite list_filter_filter, (filter_map_comm _ (norm_price pc)), !map_map.
  rewrite (filter_map_comm _ (λ r, norm_year yc (norm_mileage mc (norm_price pc r)))).
  rewrite list_filter_filter. f_equal.
  apply list_filter_iff. intros r.
  unfold known, in_range, norm_year at 1. rewrite cell_at_insert.
  unfold norm_mileage at 1. rewrite cell_at_insert_ne by done.
  unfold norm_price at 1 2 3. rewrite cell_at_insert_ne, !cell_at_insert by done.
  unfold retained.
  rewrite (clean_price_returned (cell_at r pc)), (clean_year_returned (cell_at r yc)).
  cbn [returned].
  destruct (returned None (clean_price (cell_at r pc))) as [p|],
    (returned None (clean_year (cell_at r yc))) as [y|]; simpl;
    try destruct ((5000 <? p) && (p <? 3000000)); simpl; tauto.
Qed.

Lemma update_agree (cols : list string) c0 (g : cell → cell) r1 r2 :
  c0 ∈ cols →
  (∀ c, c ∈ cols → cell_at r1 c = cell_at r2 c) →
  ∀ c, c ∈ cols →
    cell_at (<[c0 := g (cell_at r1 c0)]> r1) c
    = cell_at (<[c0 := g (cell_at r2 c0)]> r2) c.
Proof.
  intros H0 Hag c Hc. destruct (decide (c0 = c)) as [->|Hne].
  - by rewrite !cell_at_insert, Hag.
  - rewrite !cell_at_insert_ne by done. by apply Hag.
Qed.

Lemma norm_agree (cols : list string) pc mc yc r1 r2 :
  pc ∈ cols → mc ∈ cols → yc ∈ cols →
  (∀ c, c ∈ cols → cell_at r1 c = cell_at r2 c) →
  ∀ c, c ∈ cols →
    cell_at (norm_year yc (norm_mileage mc (norm_price pc r1))) c
    = cell_at (norm_year yc (norm_mileage mc (norm_price pc r2))) c.
Proof.
  intros Hp Hm Hy Hag.
  apply (update_agree cols yc
           (λ v, store_opt (returned None (clean_year v)))); [done|].
  apply (update_agree cols mc
           (λ v, CInt (returned 0 (clean_mileage_range v)))); [done|].
  by apply (update_agree cols pc
              (λ v, store_opt (returned None (clean_price v)))).
Qed.

Lemma map_ext_elem {A B} (f g : A → B) l :
  (∀ x, x ∈ l → f x = g x) → map f l = map g l.
Proof.
  intros H. apply map_ext_in. intros x Hx. by apply H, list_elem_of_In.
Qed.

(** What [run_cleaning] writes when the three roles resolve to three
    different columns of the table. *)
Lemma run_cleaning_rows df :
  let cols := kept_columns (columns df) in
  let pc := resolve Price cols in
  let mc := resolve Mileage cols in
  let yc := resolve Year cols in
  pc ∈ cols → mc ∈ cols → yc ∈ cols → pc ≠ mc → pc ≠ yc → mc ≠ yc →
  run_cleaning df =
    Ok {| header := map (λ c, default c (rename_mapping pc mc yc !! c)) cols;
          records := map (canonical_record cols pc mc yc)
                         (filter (λ r, retained pc yc r) (rows df)) |}.
Proof.
  intros cols pc mc yc Hpc Hmc Hyc Hpm Hpy Hmy.
  rewrite run_cleaning_stages by done. fold cols pc mc yc.
  unfold rename_and_save. cbn [columns rows]. do 2 f_equal.
  rewrite stage_rows_distinct by done.
  set (D := λ r : gmap string cell,
              foldr delete r (filter (λ c, c ∈ columns df) drop_cols)).
  assert (∀ r c, c ∈ cols → cell_at (D r) c = cell_at r c) as HD.
  { intros r c Hc. by apply cell_at_dropped. }
  rewrite (filter_map_comm _ D), !map_map.
  rewrite (list_filter_iff (λ r, retained pc yc (D r)) (λ r, retained pc yc r)).
  - apply map_ext. intros r. unfold canonical_record.
    apply map_ext_elem. intros c Hc.
    apply (norm_agree cols); auto.
  - intros r. unfold retained. by rewrite !HD.
Qed.

(** * Column roles *)

Lemma is_price_name_role c : is_price_name c = matches_role Price c.
Proof. unfold is_price_name, matches_role. simpl. by rewrite orb_false_r. Qed.
Lemma is_mileage_name_role c : is_mileage_name c = matches_role Mileage c.
Proof. unfold is_mileage_name, matches_role. simpl. by rewrite orb_false_r. Qed.
Lemma is_year_name_role c : is_year_name c = matches_role Year c.
Proof. unfold is_year_name, matches_role. simpl. by rewrite orb_false_r. Qed.

Lemma resolve_role r cols :
  resolve r cols = next_or (filter (λ c, matches_role r c) cols) (fallback r).
Proof.
  destruct r; simpl; f_equal; apply list_filter_iff; intros c;
    by rewrite ?is_price_name_role, ?is_mileage_name_role, ?is_year_name_role.
Qed.

Lemma next_or_filter_first {A} (p : A → bool) (d : A) (l : list A) :
  (∃ i x, l !! i = Some x ∧ p x = true
          ∧ (∀ j y, (j < i)%nat → l !! j = Some y → p y = false)
          ∧ next_or (filter (λ x, p x) l) d = x)
  ∨ ((∀ x, x ∈ l → p x = false) ∧ next_or (filter (λ x, p x) l) d = d).
Proof.
  induction l as [|a l IH].
  - right. split; [|done]. by intros x ?%not_elem_of_nil.
  - rewrite filter_cons. destruct (decide (p a)) as [Ha|Ha].
    + left. exists 0%nat, a. apply Is_true_true in Ha.
      split_and!; [done..| |done]. intros; lia.
    + apply Is_true_false in Ha.
      destruct IH as [(i & x & Hi & Hx & Hmin & Hres)|[Hnone Hres]].
      * left. exists (S i), x. split_and!; [done..| |done].
        intros [|j] y Hj Hy; [by simplify_eq/=|].
        apply (Hmin j); [lia|done].
      * right. split; [|done]. intros x [->|?]%elem_of_cons; auto.
Qed.

Lemma resolve_cases r cols :
  resolve r cols = fallback r ∨ matches_role r (resolve r cols) = true.
Proof.
  rewrite resolve_role.
  destruct (next_or_filter_first (matches_role r) (fallback r) cols)
    as [(i & x & _ & Hx & _ & ->)|[_ ->]]; auto.
Qed.

Lemma resolve_not_passthrough r cols :
  resolve r cols ≠ "Fuel" ∧ resolve r cols ≠ "Model" ∧ resolve r cols ≠ "Brand".
Proof.
  destruct (resolve_cases r cols) as [->|H].
  - by destruct r.
  - split_and!; intros E; rewrite E in H; by destruct r.
Qed.

Lemma rename_mapping_lookup pc mc yc c :
  default c (rename_mapping pc mc yc !! c) = canonical_name pc mc yc c.
Proof.
  unfold rename_mapping, canonical_name.
  rewrite !lookup_insert. repeat case_decide; try done.
Qed.

(** * Canonical integers *)

Lemma endswith_digits suf s :
  all_digits s = true → all_digits suf = false → endswith suf s = false.
Proof.
  intros Hs Hsuf. induction s as [|c s IH].
  - simpl. destruct suf; [done|done].
  - cbn [endswith]. destruct (String.eqb_spec (String c s) suf) as [<-|_].
    + congruence.
    + simpl in Hs. apply andb_prop in Hs as [_ Hs]. auto.
Qed.

Lemma string_of_uint_nonempty u : u ≠ Decimal.Nil → NilEmpty.string_of_uint u ≠ "".
Proof. by destruct u. Qed.

Lemma py_str_canonical n :
  0 <= n →
  all_digits (py_str (CInt n)) = true
  ∧ py_str (CInt n) ≠ ""
  ∧ decimal_value (py_str (CInt n)) = n.
Proof.
  intros Hn. destruct n as [|p|p]; [done| |lia].
  simpl. pose proof (Unsigned.to_uint_nonnil p) as Hnil.
  assert (NilZero.string_of_uint (Pos.to_uint p)
          = NilEmpty.string_of_uint (Pos.to_uint p)) as ->.
  { by destruct (Pos.to_uint p). }
  split_and!.
  - eapply uint_all_digits, NilEmpty.usu.
  - by apply string_of_uint_nonempty.
  - unfold decimal_value. rewrite NilEmpty.usu.
    unfold Z.of_uint. by rewrite Unsigned.of_to.
Qed.

Lemma price_first_comma_digits s :
  all_digits s = true → s ≠ "" → price_first_comma s = Some (decimal_value s).
Proof.
  intros Hs Hne. unfold price_first_comma.
  rewrite lower_digits, strip_digits by done.
  rewrite !endswith_digits by done.
  rewrite (has_char_digits "," s) by done. simpl andb. cbv iota.
  rewrite remove_non_digits_id by done. by destruct s.
Qed.

Lemma clean_price_canonical n : 0 <= n → clean_price (CInt n) = Ok (Some n).
Proof.
  intros Hn. destruct (py_str_canonical n Hn) as (Hd & Hne & Hv).
  by rewrite clean_price_eq, price_first_comma_digits, Hv.
Qed.

Lemma before_first_last_single sep s :
  (count_char sep s ≤ 1)%nat → before_first sep s = before_last sep s.
Proof.
  induction s as [|c s IH]; simpl; [done|].
  destruct (Ascii.eqb c sep) eqn:Hc; intros Hcnt.
  - assert (has_char sep s = false) as ->; [|done].
    assert (count_char sep s = 0)%nat as H0 by lia. clear -H0.
    induction s as [|d s IH]; simpl in *; [done|].
    destruct (Ascii.eqb d sep); [done|]. simpl. apply IH. lia.
  - destruct (has_char sep s) eqn:Hs.
    + rewrite IH; [done|lia].
    + by rewrite before_first_no_sep.
Qed.

(** The two readings of step 3 differ only when a second comma occurs. *)
Lemma price_first_comma_single text :
  (count_char "," (strip (lower text)) ≤ 1)%nat →
  price_first_comma text = price_spec text.
Proof.
  intros H. unfold price_first_comma, price_spec.
  by rewrite before_first_last_single.
Qed.

(** * Records *)

Lemma lookup_map {A B} (f : A → B) (l : list A) i :
  map f l !! i = f <$> (l !! i).
Proof. revert i; induction l as [|x l IH]; intros [|i]; simpl; auto. Qed.

Lemma canonical_cells pc mc yc r :
  pc ≠ mc → pc ≠ yc → mc ≠ yc →
  let r' := norm_year yc (norm_mileage mc (norm_price pc r)) in
  cell_at r' pc = store_opt (returned None (clean_price (cell_at r pc)))
  ∧ cell_at r' mc = CInt (returned 0 (clean_mileage_range (cell_at r mc)))
  ∧ cell_at r' yc = store_opt (returned None (clean_year (cell_at r yc)))
  ∧ ∀ c, c ≠ pc → c ≠ mc → c ≠ yc → cell_at r' c = cell_at r c.
Proof.
  intros Hpm Hpy Hmy. unfold norm_year, norm_mileage, norm_price.
  split_and!; intros;
    repeat first [ rewrite cell_at_insert | rewrite cell_at_insert_ne by done ];
    done.
Qed.

Lemma canonical_name_roles cols :
  resolve Price cols ≠ resolve Mileage cols →
  resolve Price cols ≠ resolve Year cols →
  resolve Mileage cols ≠ resolve Year cols →
  canonical_name (resolve Price cols) (resolve Mileage cols)
    (resolve Year cols) (resolve Price cols) = "price"
  ∧ canonical_name (resolve Price cols) (resolve Mileage cols)
      (resolve Year cols) (resolve Mileage cols) = "mileage_km"
  ∧ canonical_name (resolve Price cols) (resolve Mileage cols)
      (resolve Year cols) (resolve Year cols) = "year".
Proof.
  destruct (resolve_not_passthrough Price cols) as (?&?&?).
  destruct (resolve_not_passthrough Mileage cols) as (?&?&?).
  destruct (resolve_not_passthrough Year cols) as (?&?&?).
  generalize dependent (resolve Price cols).
  generalize dependent (resolve Mileage cols).
  generalize dependent (resolve Year cols).
  intros yc ??? mc ??? pc ??? Hpm Hpy Hmy.
  unfold canonical_name.
  split_and!; repeat case_decide; congruence.
Qed.

Lemma run_cleaning_bound df :
  roles_bound df →
  run_cleaning df =
    Ok {| header := map (canonical_name (price_col df) (mileage_col df)
                           (year_col df))
                        (kept_columns (columns df));
          records := map (canonical_record (kept_columns (columns df))
                            (price_col df) (mileage_col df) (year_col df))
                         (filter (λ r, retained (price_col df) (year_col df) r)
                                 (rows df)) |}.
Proof.
  intros (Hp & Hm & Hy & Hpm & Hpy & Hmy).
  rewrite run_cleaning_rows by done. do 2 f_equal.
  apply map_ext. intros c. apply rename_mapping_lookup.
Qed.

(** The parsed fields of the record written for a retained row. *)
Lemma canonical_record_fields cols pc mc yc r :
  pc ≠ mc → pc ≠ yc → mc ≠ yc →
  retained pc yc r = true →
  ∃ p m y,
    clean_price (cell_at r pc) = Ok (Some p)
    ∧ clean_mileage_range (cell_at r mc) = Ok m
    ∧ clean_year (cell_at r yc) = Ok (Some y)
    ∧ 5000 < p < 3000000 ∧ 0 <= m
    ∧ ∀ i, (cols !! i = Some pc →
              canonical_record cols pc mc yc r !! i = Some (CInt p))
           ∧ (cols !! i = Some mc →
                canonical_record cols pc mc yc r !! i = Some (CInt m))
           ∧ (cols !! i = Some yc →
                canonical_record cols pc mc yc r !! i = Some (CInt y)).
Proof.
  intros Hpm Hpy Hmy (p & y & Hp & Hrange & Hyr)%retained_spec.
  exists p, (mileage_spec (py_str (cell_at r mc))), y.
  destruct (canonical_cells pc mc yc r Hpm Hpy Hmy) as (Cp & Cm & Cy & _).
  rewrite Hp, Hyr in *. rewrite clean_mileage_range_eq in *.
  repeat (split; [first [done | apply mileage_spec_nonneg]|]).
  intros i. unfold canonical_record.
  split_and!; intros Hi; rewrite lookup_map, Hi; simpl; f_equal; done.
Qed.

(** * The claims *)

(** C1 (the code departs from the claim).  For every cell [clean_price]
    follows the ordered algorithm of the specification except at step 3:
    when the text holds a comma and two characters follow the final comma,
    the code keeps what precedes the FIRST comma, where the claim keeps what
    precedes the FINAL one.  The five sample cells come out as claimed
    (80000, 80000, 80000, 100, null); on ["1,234,00"] the code returns 1
    while the claimed algorithm gives 1234. *)
Theorem clean_price_cuts_at_first_comma :
  (∀ val, clean_price val = Ok (price_first_comma (py_str val)))
  ∧ clean_price (CStr "80 000 DH") = Ok (Some 80000)
  ∧ clean_price (CStr "80000.0") = Ok (Some 80000)
  ∧ clean_price (CStr "80000.00") = Ok (Some 80000)
  ∧ clean_price (CStr "100,00") = Ok (Some 100)
  ∧ clean_price (CStr "abc") = Ok None
  ∧ clean_price (CStr "1,234,00") = Ok (Some 1)
  ∧ price_spec "1,234,00" = Some 1234.
Proof. split; [apply clean_price_eq|]. repeat split. Qed.

(** Away from a second comma the code and the claimed algorithm agree. *)
Lemma clean_price_single_comma val :
  (count_char "," (strip (lower (py_str val))) ≤ 1)%nat →
  clean_price val = Ok (price_spec (py_str val)).
Proof. intros H. by rewrite clean_price_eq, price_first_comma_single. Qed.

(** C2.  On a table whose three roles are bound to three different
    columns, a row is written to the output if and only if its parsed price
    is non-null, strictly above 5000 and strictly below 3000000 and its
    parsed year is non-null: the records written are those of the retained
    rows, in table order.  The test [retained] reads neither the mileage
    nor the value of the year.  Every record written holds a price [p] with
    [5000 < p < 3000000], a non-negative mileage and a year. *)
Theorem run_cleaning_retains_exactly (df : DataFrame) :
  roles_bound df →
  ∃ out,
    run_cleaning df = Ok out
    ∧ records out
      = map (canonical_record (kept_columns (columns df))
               (price_col df) (mileage_col df) (year_col df))
            (filter (λ r, retained (price_col df) (year_col df) r) (rows df))
    ∧ (∀ r, retained (price_col df) (year_col df) r = true ↔
            ∃ p y, clean_price (cell_at r (price_col df)) = Ok (Some p)
                   ∧ 5000 < p < 3000000
                   ∧ clean_year (cell_at r (year_col df)) = Ok (Some y))
    ∧ (∀ rec, rec ∈ records out →
         ∃ p m y, 5000 < p < 3000000 ∧ 0 <= m
           ∧ ∀ i,
               (kept_columns (columns df) !! i = Some (price_col df) →
                  rec !! i = Some (CInt p))
               ∧ (kept_columns (columns df) !! i = Some (mileage_col df) →
                    rec !! i = Some (CInt m))
               ∧ (kept_columns (columns df) !! i = Some (year_col df) →
                    rec !! i = Some (CInt y))).
Proof.
  intros Hb. eexists. split; [by apply run_cleaning_bound|].
  cbn [records]. split_and!; [done|apply retained_spec|].
  destruct Hb as (_ & _ & _ & Hpm & Hpy & Hmy).
  intros rec (r & <- & Hr)%list_elem_of_In%in_map_iff.
  apply list_elem_of_In, list_elem_of_filter in Hr as [Hr _].
  apply Is_true_true in Hr.
  destruct (canonical_record_fields (kept_columns (columns df))
              _ _ _ r Hpm Hpy Hmy Hr) as (p & m & y & _ & _ & _ & ? & ? & ?).
  by exists p, m, y.
Qed.

Lemma run_cleaning_retains_exactly_witness :
  roles_bound sample_table
  ∧ ∃ out, run_cleaning sample_table = Ok out
           ∧ length (records out) = 2%nat.
Proof.
  assert (roles_bound sample_table) as Hb.
  { apply (bool_decide_unpack _). vm_compute. exact I. }
  split; [exact Hb|].
  destruct (run_cleaning_retains_exactly sample_table Hb)
    as (out & Hrun & Hrec & _).
  exists out. split; [exact Hrun|]. rewrite Hrec. vm_compute. reflexivity.
Defined.

(** The boundaries of the price test: 5000 and 3000000 are dropped, 5001
    and 2999999 are kept. *)
Lemma retained_boundaries pc yc r y :
  clean_year (cell_at r yc) = Ok (Some y) →
  (cell_at r pc = CInt 5000 → retained pc yc r = false)
  ∧ (cell_at r pc = CInt 5001 → retained pc yc r = true)
  ∧ (cell_at r pc = CInt 2999999 → retained pc yc r = true)
  ∧ (cell_at r pc = CInt 3000000 → retained pc yc r = false).
Proof.
  intros Hy. unfold retained. rewrite Hy.
  split_and!; intros ->; reflexivity.
Qed.

(** C3.  A table of three rows whose price cells read ["80 000 DH"],
    ["3000"] and ["120000.00"], each with a year that parses, is written as
    exactly two records, those of the first and third rows in that order;
    their cells in the column written as [price] are 80000 and 120000, the
    ["3000"] row being dropped. *)
Theorem run_cleaning_three_listings
    (cols : list string) (r1 r2 r3 : gmap string cell) (y1 y2 y3 : Z) :
  let df := {| columns := cols; rows := [r1; r2; r3] |} in
  roles_bound df →
  cell_at r1 (price_col df) = CStr "80 000 DH" →
  cell_at r2 (price_col df) = CStr "3000" →
  cell_at r3 (price_col df) = CStr "120000.00" →
  clean_year (cell_at r1 (year_col df)) = Ok (Some y1) →
  clean_year (cell_at r2 (year_col df)) = Ok (Some y2) →
  clean_year (cell_at r3 (year_col df)) = Ok (Some y3) →
  ∃ out i,
    run_cleaning df = Ok out
    ∧ records out
      = [ canonical_record (kept_columns cols) (price_col df)
            (mileage_col df) (year_col df) r1;
          canonical_record (kept_columns cols) (price_col df)
            (mileage_col df) (year_col df) r3 ]
    ∧ header out !! i = Some "price"
    ∧ map (λ rec, rec !! i) (records out)
      = [Some (CInt 80000); Some (CInt 120000)].
Proof.
  intros df Hb P1 P2 P3 Y1 Y2 Y3.
  pose proof (run_cleaning_bound df Hb) as Hrun.
  destruct Hb as (Hp & _ & _ & Hpm & Hpy & Hmy).
  assert (retained (price_col df) (year_col df) r1 = true) as R1.
  { unfold retained. by rewrite P1, Y1. }
  assert (retained (price_col df) (year_col df) r2 = false) as R2.
  { unfold retained. by rewrite P2, Y2. }
  assert (retained (price_col df) (year_col df) r3 = true) as R3.
  { unfold retained. by rewrite P3, Y3. }
  apply list_elem_of_lookup in Hp as [i Hi].
  assert (filter (λ r, retained (price_col df) (year_col df) r) [r1; r2; r3]
          = [r1; r3]) as Hf.
  { rewrite !filter_cons, filter_nil. by rewrite R1, R2, R3. }
  eexists _, i. split; [exact Hrun|]. cbn [records header rows columns df].
  rewrite Hf. split_and!; [done| |].
  - rewrite lookup_map. cbn [columns df] in Hi. rewrite Hi. simpl. f_equal.
    exact (proj1 (canonical_name_roles (kept_columns cols) Hpm Hpy Hmy)).
  - destruct (canonical_cells _ _ _ r1 Hpm Hpy Hmy) as (C1 & _).
    destruct (canonical_cells _ _ _ r3 Hpm Hpy Hmy) as (C3 & _).
    cbn [map]. unfold canonical_record. rewrite !lookup_map.
    cbn [columns df] in Hi. rewrite Hi. simpl.
    rewrite C1, C3, P1, P3. reflexivity.
Qed.

Lemma run_cleaning_three_listings_witness :
  ∃ out i,
    run_cleaning sample_table = Ok out
    ∧ header out !! i = Some "price"
    ∧ map (λ rec, rec !! i) (records out)
      = [Some (CInt 80000); Some (CInt 120000)].
Proof.
  assert (roles_bound sample_table) as Hb.
  { apply (bool_decide_unpack _). vm_compute. exact I. }
  destruct (run_cleaning_three_listings sample_columns
              (listing "80 000 DH" "100 000 - 110 000" "2015" "red")
              (listing "3000" "" "2019" "blue")
              (listing "120000.00" "85,000 km" "1980 ou plus ancien" "grey")
              2015 2019 1980 Hb)
    as (out & i & Hrun & _ & Hh & Hp); try (vm_compute; reflexivity).
  by exists out, i.
Defined.

(** C4 (amended).  For every cell, [clean_year] returns the integer
    written by the first four consecutive decimal digits of the lower-cased,
    trimmed text (the least offset at which four digits stand, whether or
    not further digits adjoin them: a longer stretch of digits gives its
    first four), and null when no offset carries four digits; a later group
    is not used and the value is not checked against any bound.
    ["1980 ou plus ancien"] gives 1980, ["2019"] gives 2019,
    ["no digits here"] gives null. *)
Theorem clean_year_first_four_digits :
  (∀ val,
     let t := strip (lower (py_str val)) in
     (∃ i, digits4_at t i = true
           ∧ (∀ j, (j < i)%nat → digits4_at t j = false)
           ∧ clean_year val
             = Ok (Some (decimal_value (String.substring i 4 t))))
     ∨ ((∀ i, digits4_at t i = false) ∧ clean_year val = Ok None))
  ∧ clean_year (CStr "1980 ou plus ancien") = Ok (Some 1980)
  ∧ clean_year (CStr "2019") = Ok (Some 2019)
  ∧ clean_year (CStr "no digits here") = Ok None
  ∧ clean_year (CStr "2015 - 2019") = Ok (Some 2015)
  ∧ clean_year (CStr "0000") = Ok (Some 0)
  ∧ clean_year (CStr "9999") = Ok (Some 9999).
Proof. split; [apply clean_year_eq|]. repeat split. Qed.

(** A longer run of digits gives its first four. *)
Lemma clean_year_long_run : clean_year (CStr "12345") = Ok (Some 1234).
Proof. reflexivity. Qed.

(** C4 as stated fails: where more than four digits stand together the
    code takes the first four of them, while the claim's run of exactly four
    digits is the next stretch that has four (or none).  On ["12345 2019"]
    the code returns 1234 and the claim 2019; on ["120000 km 2015"] the code
    returns 1200 and the claim 2015; on ["12345"] the code returns 1234 and
    the claim null. *)
Lemma clean_year_splits_longer_run :
  clean_year (CStr "12345 2019") = Ok (Some 1234)
  ∧ year_exact_run "12345 2019" = Some 2019
  ∧ clean_year (CStr "120000 km 2015") = Ok (Some 1200)
  ∧ year_exact_run "120000 km 2015" = Some 2015
  ∧ clean_year (CStr "12345") = Ok (Some 1234)
  ∧ year_exact_run "12345" = None
  ∧ clean_year (CStr "12345 2019") ≠ Ok (year_exact_run "12345 2019").
Proof. repeat split. discriminate. Qed.

Lemma append_snoc cur c s : (cur +:+ String c "") +:+ s = cur +:+ String c s.
Proof.
  induction cur as [|d cur IH]; [done|].
  change (String d ((cur +:+ String c "") +:+ s) = String d (cur +:+ String c s)).
  by rewrite IH.
Qed.

Lemma append_empty cur : cur +:+ "" = cur.
Proof.
  induction cur as [|d cur IH]; [done|].
  change (String d (cur +:+ "") = String d cur). by rewrite IH.
Qed.

Lemma length_snoc cur c :
  String.length (cur +:+ String c "") = S (String.length cur).
Proof. induction cur as [|d cur IH]; simpl; auto. Qed.

Lemma all_digits_snoc cur c :
  all_digits (cur +:+ String c "") = all_digits cur && is_digit c.
Proof.
  induction cur as [|d cur IH]; simpl; [by rewrite andb_true_r|].
  by rewrite IH, andb_assoc.
Qed.

Lemma search_d4_short cur :
  (String.length cur < 4)%nat → search_d4 cur = None.
Proof.
  destruct cur as [|a [|b [|c [|d r]]]]; simpl; intros; try done; lia.
Qed.

Lemma search_d4_four cur s :
  String.length cur = 4%nat → all_digits cur = true →
  search_d4 (cur +:+ s) = Some cur.
Proof.
  destruct cur as [|a [|b [|c [|d [|e r]]]]]; try done. simpl.
  intros _ [-> [-> [-> [-> _]%andb_prop]%andb_prop]%andb_prop]%andb_prop.
  done.
Qed.

Lemma search_d4_skip cur c s :
  (String.length cur < 4)%nat → is_digit c = false →
  search_d4 (cur +:+ String c s) = search_d4 s.
Proof.
  intros Hlen Hc.
  assert (∀ t, match_d4 (String c t) = None) as H0.
  { intros t. unfold match_d4. rewrite Hc. by destruct t as [|? [|? [|? ?]]]. }
  assert (∀ x t, match_d4 (String x (String c t)) = None) as H1.
  { intros x t. unfold match_d4. rewrite Hc, andb_false_r.
    by destruct t as [|? [|? ?]]. }
  assert (∀ x y t, match_d4 (String x (String y (String c t))) = None) as H2.
  { intros x y t. unfold match_d4. rewrite Hc, andb_false_r.
    by destruct t as [|? ?]. }
  assert (∀ x y z t,
            match_d4 (String x (String y (String z (String c t)))) = None)
    as H3.
  { intros x y z t. unfold match_d4. by rewrite Hc, andb_false_r. }
  destruct cur as [|x [|y [|z [|w r]]]]; simpl in Hlen; try lia.
  - change (search_d4 (String c s) = search_d4 s).
    cbn [search_d4]. by rewrite H0.
  - change (search_d4 (String x (String c s)) = search_d4 s).
    cbn [search_d4]. by rewrite H1, H0.
  - change (search_d4 (String x (String y (String c s))) = search_d4 s).
    cbn [search_d4]. by rewrite H2, H1, H0.
  - change (search_d4 (String x (String y (String z (String c s))))
            = search_d4 s).
    cbn [search_d4]. by rewrite H3, H2, H1, H0.
Qed.

Lemma exact_run4_search cur s :
  all_digits cur = true → (String.length cur ≤ 4)%nat →
  runs_within4 (String.length cur) s = true →
  exact_run4 cur s = search_d4 (cur +:+ s).
Proof.
  revert cur. induction s as [|c s IH]; intros cur Hd Hlen Hr.
  - cbn [exact_run4]. destruct (String.length cur =? 4)%nat eqn:E.
    + apply Nat.eqb_eq in E. by rewrite search_d4_four.
    + apply Nat.eqb_neq in E. rewrite append_empty.
      rewrite search_d4_short; [done|lia].
  - cbn [exact_run4 runs_within4] in *. destruct (is_digit c) eqn:Hc.
    + apply andb_prop in Hr as [Hn%Nat.ltb_lt Hr].
      rewrite IH, append_snoc; [done|..].
      * by rewrite all_digits_snoc, Hd, Hc.
      * rewrite length_snoc. lia.
      * by rewrite length_snoc.
    + destruct (String.length cur =? 4)%nat eqn:E.
      * apply Nat.eqb_eq in E. by rewrite search_d4_four.
      * apply Nat.eqb_neq in E.
        rewrite search_d4_skip by (done || lia).
        exact (IH "" eq_refl ltac:(simpl; lia) Hr).
Qed.

(** Where no stretch of digits is longer than four, the code returns the
    first run of exactly four digits, as the claim has it. *)
Lemma clean_year_exact_run val :
  runs_within4 0 (strip (lower (py_str val))) = true →
  clean_year val = Ok (year_exact_run (py_str val)).
Proof.
  intros Hr. unfold year_exact_run.
  rewrite (exact_run4_search "" _ eq_refl ltac:(simpl; lia) Hr).
  change ("" +:+ strip (lower (py_str val))) with (strip (lower (py_str val))).
  unfold clean_year.
  pose proof (search_d4_spec (strip (lower (py_str val)))) as Hs.
  destruct (search_d4 (strip (lower (py_str val)))) as [g|]; [|done].
  destruct Hs as (i & Hi & _ & ->). by rewrite digits4_at_int.
Qed.

(** C5.  For every cell, [clean_mileage_range] lower-cases and trims the
    text, keeps what precedes the first ['-'] when there is one, removes
    every non-digit and reads the digits left as an integer, 0 when none is
    left; it never returns null and its result is never negative.
    ["100 000 - 110 000"] gives 100000, ["85,000 km"] gives 85000, the empty
    text gives 0. *)
Theorem clean_mileage_range_lower_bound :
  (∀ val, clean_mileage_range val = Ok (mileage_spec (py_str val))
          ∧ 0 <= mileage_spec (py_str val))
  ∧ clean_mileage_range (CStr "100 000 - 110 000") = Ok 100000
  ∧ clean_mileage_range (CStr "85,000 km") = Ok 85000
  ∧ clean_mileage_range (CStr "") = Ok 0.
Proof.
  split; [|repeat split]. intros val.
  split; [apply clean_mileage_range_eq|apply mileage_spec_nonneg].
Qed.

(** C6.  For every list of column names and each of the roles Price,
    Mileage and Year, the resolver returns the first column, in table
    order, whose lower-cased name contains one of the role's synonyms; when
    no column does, it returns the role's literal fallback name, whether or
    not the table has a column of that name.  It always returns a name. *)
Theorem resolve_first_match (r : role) (cols : list string) :
  (∃ i c, cols !! i = Some c
          ∧ matches_role r c = true
          ∧ (∀ j c', (j < i)%nat → cols !! j = Some c' →
                     matches_role r c' = false)
          ∧ resolve r cols = c)
  ∨ ((∀ c, c ∈ cols → matches_role r c = false)
     ∧ resolve r cols = fallback r).
Proof. rewrite resolve_role. apply next_or_filter_first. Qed.

Lemma resolve_examples :
  resolve Price ["Marque"; "Prix (DH)"; "price_estimate"] = "Prix (DH)"
  ∧ resolve Mileage ["Brand"; "KM"] = "KM"
  ∧ resolve Year ["Brand"; "Model"] = "Year".
Proof. repeat split. Qed.

(** C7 as stated fails: a source column that is neither a role column nor
    one of the four dropped names is written to the output.  The sample
    table has a column [Color]; it is in the header written, and it is
    none of the six canonical fields. *)
Lemma unlisted_column_is_written :
  ∃ out,
    run_cleaning sample_table = Ok out
    ∧ header out = ["price"; "mileage_km"; "year"; "Color"]
    ∧ ¬ (∀ h, h ∈ header out → h ∈ canonical_fields).
Proof.
  eexists. split; [vm_compute; reflexivity|]. split; [reflexivity|].
  intros H. specialize (H "Color"). cbn [header] in H.
  assert ("Color" ∈ canonical_fields) as Hin.
  { apply H. by repeat constructor. }
  by apply (bool_decide_pack _), Is_true_true in Hin.
Qed.

(** C7 (amended).  On a table whose three roles are bound to three
    different columns, the header written lists every source column other
    than [Sector], [Location], [sector] and [location], in source order:
    the price, mileage and year columns under the names [price],
    [mileage_km] and [year], columns named exactly [Brand], [Model] and
    [Fuel] under [brand], [model] and [fuel_type], and every other column
    under its own name.  Each record has one cell per header entry. *)
Theorem run_cleaning_header (df : DataFrame) :
  roles_bound df →
  ∃ out,
    run_cleaning df = Ok out
    ∧ header out
      = map (canonical_name (price_col df) (mileage_col df) (year_col df))
            (kept_columns (columns df))
    ∧ canonical_name (price_col df) (mileage_col df) (year_col df)
        (price_col df) = "price"
    ∧ canonical_name (price_col df) (mileage_col df) (year_col df)
        (mileage_col df) = "mileage_km"
    ∧ canonical_name (price_col df) (mileage_col df) (year_col df)
        (year_col df) = "year"
    ∧ (∀ c, c ∈ columns df → c ∉ drop_cols →
            c ∉ [price_col df; mileage_col df; year_col df;
                 "Brand"; "Model"; "Fuel"] →
            c ∈ header out)
    ∧ (∀ rec, rec ∈ records out → length rec = length (header out)).
Proof.
  intros Hb. eexists. split; [by apply run_cleaning_bound|].
  cbn [header records].
  destruct Hb as (_ & _ & _ & Hpm & Hpy & Hmy).
  destruct (canonical_name_roles (kept_columns (columns df)) Hpm Hpy Hmy)
    as (Np & Nm & Ny).
  split_and!; try done.
  - intros c Hc Hd Hr. apply list_elem_of_In, in_map_iff. exists c. split.
    + unfold canonical_name.
      repeat case_decide; try done; subst; exfalso; apply Hr;
        repeat first [ by left | right ].
    + apply list_elem_of_In, list_elem_of_filter. done.
  - intros rec (r & <- & _)%list_elem_of_In%in_map_iff.
    unfold canonical_record. by rewrite !length_map.
Qed.

Lemma run_cleaning_header_witness :
  roles_bound sample_table
  ∧ ∃ out, run_cleaning sample_table = Ok out
           ∧ header out = ["price"; "mileage_km"; "year"; "Color"].
Proof.
  assert (roles_bound sample_table) as Hb.
  { apply (bool_decide_unpack _). vm_compute. exact I. }
  split; [exact Hb|].
  destruct (run_cleaning_header sample_table Hb) as (out & Hrun & Hh & _).
  exists out. split; [exact Hrun|]. rewrite Hh. vm_compute. reflexivity.
Defined.

(** C8.  For every cell, of whichever type, each of the three parsers
    returns: [clean_price] and [clean_year] an integer or null,
    [clean_mileage_range] an integer.  No exception leaves a parser, the
    indexing of the split pieces and the conversion of the matched digits
    included. *)
Theorem parsers_never_raise (val : cell) :
  (∃ p : option Z, clean_price val = Ok p)
  ∧ (∃ y : option Z, clean_year val = Ok y)
  ∧ (∃ m : Z, clean_mileage_range val = Ok m).
Proof.
  split_and!; eexists.
  - apply clean_price_returned.
  - apply clean_year_returned.
  - apply clean_mileage_range_returned.
Qed.

Lemma parsers_on_other_cells :
  clean_price CNaN = Ok None
  ∧ clean_year CNaN = Ok None
  ∧ clean_mileage_range CNaN = Ok 0
  ∧ clean_price (CFloat "80000.0") = Ok (Some 80000)
  ∧ clean_year (CFloat "2019.0") = Ok (Some 2019)
  ∧ clean_mileage_range (CInt (-5)) = Ok 0.
Proof. repeat split. Qed.

(** C9.  On an integer cell holding a non-negative value [n] the price
    parser returns [n]: parsing a canonical price again changes nothing. *)
Theorem clean_price_idempotent (n : Z) :
  0 <= n → clean_price (CInt n) = Ok (Some n).
Proof. apply clean_price_canonical. Qed.

Lemma clean_price_idempotent_witness :
  0 <= 80000 ∧ clean_price (CInt 80000) = Ok (Some 80000).
Proof. split; [lia|]. apply (clean_price_idempotent 80000). lia. Defined.

(** Whatever the parser returned once, it returns again on that value. *)
Lemma clean_price_twice val n :
  clean_price val = Ok (Some n) → clean_price (CInt n) = Ok (Some n).
Proof.
  rewrite clean_price_eq. intros [= H]. apply clean_price_canonical.
  unfold price_first_comma in H. by eapply parse_digits_nonneg.
Qed.

(** C10.  A non-null result of the price parser is never negative; a
    leading minus sign is removed with the other non-digits, so the text
    ["-100"] and the integer cell -100 both give 100. *)
Theorem clean_price_nonneg (val : cell) (v : Z) :
  clean_price val = Ok (Some v) →
  0 <= v
  ∧ clean_price (CStr "-100") = Ok (Some 100)
  ∧ clean_price (CInt (-100)) = Ok (Some 100).
Proof.
  rewrite clean_price_eq. intros [= H]. split; [|by split].
  unfold price_first_comma in H. by eapply parse_digits_nonneg.
Qed.

Lemma clean_price_nonneg_witness :
  clean_price (CStr "-100") = Ok (Some 100) ∧ 0 <= 100.
Proof.
  split; [reflexivity|].
  apply (clean_price_nonneg (CStr "-100") 100). reflexivity.
Defined.

(** * Further properties of the cleaner *)

Lemma get_column_missing df c :
  c ∉ columns df → get_column df c = Raise KeyError.
Proof. intros H. unfold get_column. by rewrite bool_decide_eq_false_2. Qed.

Lemma bind_Raise {A B} (f : A → result B) e : (Raise e ≫= f) = Raise e.
Proof. reflexivity. Qed.

(** [run_cleaning] up to the price filter, then the mileage lookup. *)
Ltac price_stage cols pc rows0 rows1 Hst :=
  unfold run_cleaning; rewrite drop_ok, bind_Ok; cbn [columns rows];
  fold cols; change (next_or (filter is_price_name cols) "Price") with pc;
  cbv zeta;
  set (rows0 := map _ (rows _));
  rewrite get_column_ok, bind_Ok by done; cbn [columns rows];
  rewrite (series_apply_ok rows0 pc clean_price None store_opt
             clean_price_returned), bind_Ok;
  rewrite (set_column_ok cols rows0 pc
             (λ r, store_opt (returned None (clean_price (cell_at r pc))))),
    bind_Ok by done;
  cbn [columns rows];
  rewrite dropna_ok, bind_Ok by done; cbn [columns rows];
  rewrite get_column_ok, bind_Ok by done; cbn [columns rows];
  fold (norm_price pc);
  set (rows1 := filter _ (map (norm_price pc) rows0));
  assert (Forall (λ r, ∃ o, cell_at r pc = store_opt o) rows1) as Hst
    by (apply Forall_forall; intros ? [_ Hr]%list_elem_of_filter;
        apply list_elem_of_In, in_map_iff in Hr as (? & <- & _);
        unfold norm_price; rewrite cell_at_insert; eauto);
  destruct (series_cmp_ok rows1 pc 5000 Hst) as [-> _];
  rewrite !bind_Ok;
  destruct (series_cmp_ok rows1 pc 3000000 Hst) as [_ ->];
  rewrite bind_Ok;
  rewrite series_and_map; unfold select_rows; cbn [columns rows];
  rewrite select_by_map;
  fold cols.

Lemma run_cleaning_key_error df :
  let cols := kept_columns (columns df) in
  ¬ (price_col df ∈ cols ∧ mileage_col df ∈ cols ∧ year_col df ∈ cols) →
  run_cleaning df = Raise KeyError.
Proof.
  intros cols Hnot.
  unfold price_col, mileage_col, year_col in Hnot. fold cols in Hnot.
  set (pc := resolve Price cols) in *.
  set (mc := resolve Mileage cols) in *.
  set (yc := resolve Year cols) in *.
  destruct (decide (pc ∈ cols)) as [Hp|Hp].
  + destruct (decide (mc ∈ cols)) as [Hm|Hm].
    * assert (yc ∉ cols) as Hy by tauto.
      price_stage cols pc rows0 rows1 Hst.
      change (next_or (filter is_mileage_name cols) "Mileage") with mc.
      rewrite get_column_ok, bind_Ok by done. cbn [columns rows].
      set (rows2 := filter _ rows1).
      rewrite (series_apply_ok rows2 mc clean_mileage_range 0 CInt
                 clean_mileage_range_returned), bind_Ok.
      rewrite (set_column_ok cols rows2 mc
                 (λ r, CInt (returned 0 (clean_mileage_range (cell_at r mc))))),
        bind_Ok by done.
      cbn [columns rows].
      change (next_or (filter is_year_name cols) "Year") with yc.
      by rewrite get_column_missing.
    * price_stage cols pc rows0 rows1 Hst.
      change (next_or (filter is_mileage_name cols) "Mileage") with mc.
      by rewrite get_column_missing.
  + unfold run_cleaning. rewrite drop_ok, bind_Ok. cbn [columns rows].
    fold cols. change (next_or (filter is_price_name cols) "Price") with pc.
    cbv zeta. by rewrite get_column_missing.
Qed.

(** X1.  [run_cleaning] writes a table exactly when each of the three roles
    resolves to a column the table has (after the four useless names are
    dropped); when one does not, the column lookup raises [KeyError] and
    nothing is written. *)
Theorem run_cleaning_returns_iff (df : DataFrame) :
  let cols := kept_columns (columns df) in
  (price_col df ∈ cols ∧ mileage_col df ∈ cols ∧ year_col df ∈ cols →
   ∃ out, run_cleaning df = Ok out)
  ∧ (¬ (price_col df ∈ cols ∧ mileage_col df ∈ cols ∧ year_col df ∈ cols) →
     run_cleaning df = Raise KeyError).
Proof.
  intros cols. split.
  - intros (Hp & Hm & Hy). eexists. by apply run_cleaning_stages.
  - apply run_cleaning_key_error.
Qed.

Lemma run_cleaning_returns_iff_witness :
  run_cleaning {| columns := ["Price"; "Mileage"];
                  rows := [ <["Mileage" := CStr "10 000"]>
                              (<["Price" := CStr "80 000 DH"]> ∅) ] |}
  = Raise KeyError.
Proof.
  apply (proj2 (run_cleaning_returns_iff
                  {| columns := ["Price"; "Mileage"];
                     rows := [ <["Mileage" := CStr "10 000"]>
                                 (<["Price" := CStr "80 000 DH"]> ∅) ] |})).
  intros (_ & _ & Hy). revert Hy. apply (bool_decide_unpack _).
  vm_compute. exact I.
Defined.

(** What [run_cleaning] wrote, whenever it wrote something. *)
Lemma run_cleaning_Ok_stages df out :
  run_cleaning df = Ok out →
  out = rename_and_save
          (rename_mapping (price_col df) (mileage_col df) (year_col df))
          {| columns := kept_columns (columns df);
             rows := stage_rows (price_col df) (mileage_col df) (year_col df)
                       (map (λ r, foldr delete r
                                    (filter (λ c, c ∈ columns df) drop_cols))
                            (rows df)) |}.
Proof.
  intros Hrun.
  destruct (decide (price_col df ∈ kept_columns (columns df)
                    ∧ mileage_col df ∈ kept_columns (columns df)
                    ∧ year_col df ∈ kept_columns (columns df)))
    as [(Hp & Hm & Hy)|Hnot].
  - rewrite run_cleaning_stages in Hrun by done. by injection Hrun as <-.
  - by rewrite run_cleaning_key_error in Hrun.
Qed.

Lemma stage_rows_length pc mc yc l :
  (length (stage_rows pc mc yc l) ≤ length l)%nat.
Proof.
  unfold stage_rows.
  repeat first [ rewrite length_map
               | etrans; [apply length_filter|] ].
  done.
Qed.

(** X2.  Whenever [run_cleaning] writes a table, it has at most as many
    records as the source has rows, its header has one name per source
    column other than the four dropped ones, and every record has exactly
    one cell per header name. *)
Theorem run_cleaning_output_shape (df : DataFrame) (out : Csv) :
  run_cleaning df = Ok out →
  (length (records out) ≤ length (rows df))%nat
  ∧ length (header out) = length (kept_columns (columns df))
  ∧ ∀ rec, rec ∈ records out → length rec = length (header out).
Proof.
  intros ->%run_cleaning_Ok_stages. unfold rename_and_save.
  cbn [header records columns rows]. split_and!.
  - rewrite length_map. etrans; [apply stage_rows_length|].
    by rewrite length_map.
  - by rewrite length_map.
  - intros rec (r & <- & _)%list_elem_of_In%in_map_iff.
    by rewrite !length_map.
Qed.

Lemma run_cleaning_output_shape_witness :
  run_cleaning sample_table = Ok sample_output
  ∧ (length (records sample_output) ≤ 3)%nat
  ∧ length (header sample_output) = 4%nat.
Proof.
  assert (run_cleaning sample_table = Ok sample_output) as Hrun
    by (vm_compute; reflexivity).
  split; [exact Hrun|].
  destruct (run_cleaning_output_shape sample_table sample_output Hrun)
    as (H1 & H2 & _).
  split; [exact H1|exact H2].
Defined.

(** X3.  No column of the written table is named [Sector], [Location],
    [sector] or [location]: the dropped columns never come back, whatever
    the role columns are renamed to. *)
Theorem run_cleaning_never_writes_dropped (df : DataFrame) (out : Csv) (h : string) :
  run_cleaning df = Ok out → h ∈ header out → h ∉ drop_cols.
Proof.
  intros ->%run_cleaning_Ok_stages. unfold rename_and_save.
  cbn [header columns].
  intros (c & <- & Hc)%list_elem_of_In%in_map_iff.
  apply list_elem_of_In, list_elem_of_filter in Hc as [Hc _].
  rewrite rename_mapping_lookup. unfold canonical_name.
  repeat case_decide; try done;
    intros Hin; by apply (bool_decide_pack _), Is_true_true in Hin.
Qed.

Lemma run_cleaning_never_writes_dropped_witness :
  run_cleaning sample_table = Ok sample_output
  ∧ "Color" ∈ header sample_output ∧ "Color" ∉ drop_cols.
Proof.
  assert (run_cleaning sample_table = Ok sample_output) as Hrun
    by (vm_compute; reflexivity).
  assert ("Color" ∈ header sample_output) as Hin
    by (apply (bool_decide_unpack _); vm_compute; exact I).
  split; [exact Hrun|]. split; [exact Hin|].
  exact (run_cleaning_never_writes_dropped sample_table sample_output
           "Color" Hrun Hin).
Defined.

(** *** Decimal text and its value *)

Lemma of_uint_acc_horner u acc :
  Z.pos (Pos.of_uint_acc u acc) = horner_uint (Z.pos acc) u.
Proof.
  revert acc; induction u as [|u IH|u IH|u IH|u IH|u IH|u IH|u IH|u IH|u IH|u IH];
    intros acc; simpl; [done|..]; rewrite IH; f_equal; lia.
Qed.

Lemma of_uint_horner u : Z.of_uint u = horner_uint 0 u.
Proof.
  unfold Z.of_uint.
  induction u as [|u IH|u IH|u IH|u IH|u IH|u IH|u IH|u IH|u IH|u IH];
    simpl; [done|exact IH|..]; by rewrite of_uint_acc_horner.
Qed.

Lemma uint_of_string_horner s u acc :
  NilEmpty.uint_of_string s = Some u → horner_uint acc u = horner acc s.
Proof.
  revert u acc; induction s as [|c s IH]; intros u acc; simpl.
  - by intros [= <-].
  - destruct (NilEmpty.uint_of_string s) as [u'|] eqn:E; [|done].
    intros H. apply uint_of_char_spec in H.
    destruct H as [[-> ->]|[[-> ->]|[[-> ->]|[[-> ->]|[[-> ->]|[[-> ->]
      |[[-> ->]|[[-> ->]|[[-> ->]|[-> ->]]]]]]]]]];
      simpl; rewrite (IH u') by done; f_equal;
      unfold digit_value; simpl; lia.
Qed.

(** The integer read from a string of digits is its positional value. *)
Lemma decimal_value_horner s :
  all_digits s = true → decimal_value s = horner 0 s.
Proof.
  intros [u Hu]%all_digits_uint. unfold decimal_value. rewrite Hu.
  rewrite of_uint_horner. by apply uint_of_string_horner.
Qed.

Lemma horner_app acc s1 s2 :
  horner acc (s1 +:+ s2) = horner (horner acc s1) s2.
Proof. revert acc; induction s1 as [|c s1 IH]; intros acc; simpl; auto. Qed.

Lemma horner_shift acc s :
  horner acc s = acc * 10 ^ Z.of_nat (String.length s) + horner 0 s.
Proof.
  revert acc; induction s as [|c s IH]; intros acc.
  - simpl. lia.
  - cbn [horner String.length]. rewrite IH, (IH (10 * 0 + digit_value c)).
    rewrite Nat2Z.inj_succ, Z.pow_succ_r by lia. lia.
Qed.

Lemma digit_value_range c : is_digit c = true → 0 <= digit_value c <= 9.
Proof.
  destruct c as [[] [] [] [] [] [] [] []]; vm_compute; intros H;
    first [ discriminate H | split; discriminate ].
Qed.

Lemma all_digits_app s1 s2 :
  all_digits (s1 +:+ s2) = all_digits s1 && all_digits s2.
Proof.
  induction s1 as [|c s1 IH]; simpl; [done|]. by rewrite IH, andb_assoc.
Qed.

Lemma remove_non_digits_app s1 s2 :
  remove_non_digits (s1 +:+ s2) = remove_non_digits s1 +:+ remove_non_digits s2.
Proof.
  induction s1 as [|c s1 IH]; simpl; [done|].
  destruct (is_digit c); simpl; by rewrite IH.
Qed.

Lemma has_char_app x s1 s2 :
  has_char x (s1 +:+ s2) = has_char x s1 || has_char x s2.
Proof.
  induction s1 as [|c s1 IH]; simpl; [done|]. by rewrite IH, orb_assoc.
Qed.

(** *** Plain text *)

Lemma plain_app s1 s2 : plain (s1 +:+ s2) = plain s1 && plain s2.
Proof.
  induction s1 as [|c s1 IH]; simpl; [done|]. by rewrite IH, !andb_assoc.
Qed.

Lemma plain_digits s : all_digits s = true → plain s = true.
Proof.
  induction s as [|c s IH]; simpl; [done|].
  intros [Hc Hs]%andb_prop.
  by rewrite digit_not_space, digit_lower, Ascii.eqb_refl, IH.
Qed.

Lemma plain_lower s : plain s = true → lower s = s.
Proof.
  induction s as [|c s IH]; simpl; [done|].
  intros [[_ Hc%Ascii.eqb_eq]%andb_prop Hs]%andb_prop. by rewrite Hc, IH.
Qed.

Lemma plain_strip s : plain s = true → strip s = s.
Proof.
  intros H. unfold strip.
  assert (lstrip s = s) as ->.
  { destruct s as [|c s]; [done|]. simpl in *.
    apply andb_prop in H as [[Hc _]%andb_prop _].
    apply negb_true_iff in Hc. by rewrite Hc. }
  induction s as [|c s IH]; simpl; [done|].
  simpl in H. apply andb_prop in H as [[Hc _]%andb_prop Hs].
  apply negb_true_iff in Hc. rewrite IH by done. rewrite Hc. by destruct s.
Qed.

Lemma plain_text s : plain s = true → strip (lower s) = s.
Proof. intros H. by rewrite plain_lower, plain_strip. Qed.

Lemma endswith_app suf s : endswith suf (s +:+ suf) = true.
Proof.
  induction s as [|c s IH].
  - change (endswith suf suf = true). destruct suf; [done|].
    cbn [endswith]. by rewrite String.eqb_refl.
  - change (endswith suf (String c (s +:+ suf)) = true).
    cbn [endswith]. rewrite IH. by destruct (String.eqb _ _).
Qed.

Lemma length_app s1 s2 :
  String.length (s1 +:+ s2) = (String.length s1 + String.length s2)%nat.
Proof. induction s1 as [|c s1 IH]; simpl; auto. Qed.

Lemma substring_prefix s t :
  String.substring 0 (String.length s) (s +:+ t) = s.
Proof.
  induction s as [|c s IH]; simpl; [by destruct t|]. by rewrite IH.
Qed.

Lemma drop_last_app s suf :
  drop_last (String.length suf) (s +:+ suf) = s.
Proof.
  unfold drop_last. rewrite length_app.
  replace (String.length s + String.length suf - String.length suf)%nat
    with (String.length s) by lia.
  apply substring_prefix.
Qed.

(** *** Integer and floating cells *)

Lemma py_str_negative p :
  py_str (CInt (Z.neg p)) = String "-" (py_str (CInt (Z.pos p))).
Proof. reflexivity. Qed.

Lemma parse_digits_nonempty s :
  s ≠ "" → parse_digits s = Some (decimal_value s).
Proof. by destruct s. Qed.

(** X4.  On the text [n.0], which is how a whole number [n] held in a
    floating column prints, [clean_price] drops the fraction and returns
    [n], while [clean_mileage_range], which has no such step, keeps the
    zero as a digit and returns ten times [n]. *)
Theorem float_text_price_and_mileage (n : Z) :
  0 <= n →
  clean_price (CFloat (py_str (CInt n) +:+ ".0")) = Ok (Some n)
  ∧ clean_mileage_range (CFloat (py_str (CInt n) +:+ ".0")) = Ok (10 * n).
Proof.
  intros Hn. destruct (py_str_canonical n Hn) as (Hd & Hne & Hv).
  set (s := py_str (CInt n)) in *.
  assert (strip (lower (s +:+ ".0")) = s +:+ ".0") as Ht.
  { apply plain_text. by rewrite plain_app, plain_digits. }
  split.
  - rewrite clean_price_eq. unfold price_first_comma. cbn [py_str].
    rewrite Ht, endswith_app.
    replace (drop_last 2 (s +:+ ".0")) with s
      by (symmetry; apply (drop_last_app s ".0")).
    rewrite remove_non_digits_id by done.
    by rewrite parse_digits_nonempty, Hv.
  - rewrite clean_mileage_range_eq. unfold mileage_spec. cbn [py_str].
    rewrite Ht, has_char_app, (has_char_digits "-" s) by done.
    cbn [has_char orb Ascii.eqb Bool.eqb]. cbv iota.
    rewrite remove_non_digits_app, remove_non_digits_id by done.
    change (remove_non_digits ".0") with "0".
    rewrite parse_digits_nonempty by (by destruct s).
    rewrite decimal_value_horner by (by rewrite all_digits_app, Hd).
    rewrite horner_app, <- decimal_value_horner, Hv by done.
    f_equal. cbn [horner]. unfold digit_value. simpl. lia.
Qed.

Lemma float_text_price_and_mileage_witness :
  0 <= 85000
  ∧ clean_price (CFloat "85000.0") = Ok (Some 85000)
  ∧ clean_mileage_range (CFloat "85000.0") = Ok 850000.
Proof. split; [lia|]. apply (float_text_price_and_mileage 85000). lia. Defined.

(** X5.  On an integer cell [clean_mileage_range] returns the integer
    itself when it is not negative and 0 when it is: the minus sign is
    taken for the range separator and nothing stands before it. *)
Theorem clean_mileage_range_integer (z : Z) :
  clean_mileage_range (CInt z) = Ok (Z.max 0 z).
Proof.
  rewrite clean_mileage_range_eq. unfold mileage_spec. f_equal.
  destruct (Z.neg_nonneg_cases z) as [Hneg|Hpos].
  - destruct z as [|p|p]; [lia..|]. rewrite py_str_negative.
    destruct (py_str_canonical (Z.pos p)) as (Hd & _ & _); [lia|].
    rewrite plain_text by (by cbn [plain]; rewrite plain_digits).
    cbn. lia.
  - destruct (py_str_canonical z Hpos) as (Hd & Hne & Hv).
    rewrite plain_text by (by apply plain_digits).
    rewrite (has_char_digits "-") by done.
    rewrite remove_non_digits_id, parse_digits_nonempty by done. lia.
Qed.

(** X6.  On an integer cell [clean_price] returns the absolute value: for
    a negative integer the sign is removed with the non-digits. *)
Theorem clean_price_integer (z : Z) :
  clean_price (CInt z) = Ok (Some (Z.abs z)).
Proof.
  destruct (Z.neg_nonneg_cases z) as [Hneg|Hpos].
  - destruct z as [|p|p]; [lia..|].
    rewrite clean_price_eq, py_str_negative. unfold price_first_comma.
    destruct (py_str_canonical (Z.pos p)) as (Hd & Hne & Hv); [lia|].
    set (d := py_str (CInt (Z.pos p))) in *.
    rewrite plain_text by (by cbn [plain]; rewrite plain_digits).
    cbn [endswith String.eqb Ascii.eqb Bool.eqb andb].
    rewrite !endswith_digits by done.
    cbn [has_char Ascii.eqb Bool.eqb orb].
    rewrite (has_char_digits "," d) by done. cbn [andb].
    cbn [remove_non_digits]. change (is_digit "-") with false. cbv iota.
    by rewrite remove_non_digits_id, parse_digits_nonempty, Hv.
  - rewrite clean_price_canonical by done. by rewrite Z.abs_eq.
Qed.

(** X7.  A year returned by [clean_year] lies between 0 and 9999: the
    parser applies no plausibility bound, yet four digits cannot denote
    more. *)
Theorem clean_year_range (val : cell) (y : Z) :
  clean_year val = Ok (Some y) → 0 <= y <= 9999.
Proof.
  destruct (clean_year_eq val) as [(i & Hi & _ & ->)|[_ ->]]; [|done].
  intros [= <-]. unfold digits4_at in Hi.
  apply andb_prop in Hi as [Hlen Hd].
  destruct (String.substring i 4 _) as [|a [|b [|c [|d [|e w]]]]]; try done.
  rewrite decimal_value_horner by done. simpl in Hd.
  apply andb_prop in Hd as [Ha [Hb [Hc [Hd _]%andb_prop]%andb_prop]%andb_prop].
  apply digit_value_range in Ha, Hb, Hc, Hd. cbn [horner]. lia.
Qed.

Lemma clean_year_range_witness :
  clean_year (CStr "1980 ou plus ancien") = Ok (Some 1980)
  ∧ 0 <= 1980 <= 9999.
Proof.
  split; [reflexivity|].
  apply (clean_year_range (CStr "1980 ou plus ancien") 1980). reflexivity.
Defined.

Lemma year_reparse_all :
  forallb year_reparse_ok (seq 0 (Z.to_nat 10000)) = true.
Proof. vm_compute. reflexivity. Qed.

(** X8.  Parsing a year again, from the integer cell that holds it, gives
    the same year when it has four digits (1000 to 9999) and null when it
    is smaller: its decimal text is then shorter than four digits. *)
Theorem clean_year_reparse (y : Z) :
  0 <= y <= 9999 →
  clean_year (CInt y) = Ok (if y <? 1000 then None else Some y).
Proof.
  intros Hy. pose proof year_reparse_all as Hall.
  rewrite forallb_forall in Hall.
  specialize (Hall (Z.to_nat y)).
  unfold year_reparse_ok in Hall. rewrite Z2Nat.id in Hall by lia.
  assert (In (Z.to_nat y) (seq 0 (Z.to_nat 10000))) as Hin
    by (apply in_seq; lia).
  apply Hall in Hin. clear Hall.
  destruct (clean_year (CInt y)) as [[v|]|]; [| |done].
  - apply andb_prop in Hin as [H1%Z.leb_le ->%Z.eqb_eq].
    destruct (Z.ltb_spec y 1000); [lia|done].
  - rewrite Hin. done.
Qed.

Lemma clean_year_reparse_witness :
  0 <= 999 <= 9999
  ∧ clean_year (CStr "0999") = Ok (Some 999)
  ∧ clean_year (CInt 999) = Ok None.
Proof.
  split; [lia|]. split; [reflexivity|].
  apply (clean_year_reparse 999). lia.
Defined.

Lemma endswith_dot a b z :
  all_digits a = true → all_digits b = true →
  endswith (String "." z) (a +:+ String "." b) = String.eqb b z.
Proof.
  intros Ha Hb. induction a as [|c a IH].
  - change (endswith (String "." z) (String "." b) = String.eqb b z).
    cbn [endswith String.eqb]. change (Ascii.eqb "." ".") with true.
    cbn [andb]. destruct (String.eqb b z); [done|].
    by apply endswith_digits.
  - change (endswith (String "." z) (String c (a +:+ String "." b))
            = String.eqb b z).
    simpl in Ha. apply andb_prop in Ha as [Hc Ha].
    cbn [endswith String.eqb]. rewrite (digit_neq c ".") by done.
    cbn [andb]. auto.
Qed.

(** X9.  A price written with a fraction other than [.0] or [.00] is read
    with the fraction's digits appended to the whole part: for digit
    strings [a] and [b] the text [a.b] gives [a] times ten to the number of
    digits of [b], plus [b]. *)
Theorem clean_price_appends_fraction (a b : string) :
  all_digits a = true → all_digits b = true → a ≠ "" →
  b ≠ "0" → b ≠ "00" →
  clean_price (CStr (a +:+ "." +:+ b))
  = Ok (Some (decimal_value a * 10 ^ Z.of_nat (String.length b)
              + decimal_value b)).
Proof.
  intros Ha Hb Hne H0 H00.
  rewrite clean_price_eq. unfold price_first_comma. cbn [py_str].
  change ("." +:+ b) with (String "." b).
  rewrite plain_text
    by (rewrite plain_app; cbn [plain]; by rewrite !plain_digits).
  rewrite !endswith_dot by done.
  destruct (String.eqb_spec b "0"); [done|].
  destruct (String.eqb_spec b "00"); [done|].
  rewrite has_char_app. cbn [has_char]. change (Ascii.eqb "." ",") with false.
  rewrite !(has_char_digits ",") by done. cbn [orb andb].
  rewrite remove_non_digits_app. cbn [remove_non_digits].
  change (is_digit ".") with false. cbv iota.
  rewrite !remove_non_digits_id by done.
  rewrite parse_digits_nonempty by (by destruct a).
  rewrite decimal_value_horner by (by rewrite all_digits_app, Ha, Hb).
  rewrite horner_app, horner_shift, <- !decimal_value_horner by done.
  done.
Qed.

Lemma clean_price_appends_fraction_witness :
  clean_price (CStr "12.50") = Ok (Some 1250).
Proof.
  exact (clean_price_appends_fraction "12" "50"
           eq_refl eq_refl ltac:(discriminate) ltac:(discriminate)
           ltac:(discriminate)).
Defined.

(** * The phone scraper *)

Lemma bind_Returns {A B} (f : A → outcome B) a : (Returns a ≫= f) = f a.
Proof. reflexivity. Qed.

Lemma slug_char_plain c :
  slug_char c = true → is_space c = false ∧ lower_char c = c.
Proof.
  destruct c as [[] [] [] [] [] [] [] []]; vm_compute; intros H;
    first [ discriminate H | by split ].
Qed.

Lemma remove_non_slug_chars s : all_chars slug_char (remove_non_slug s) = true.
Proof.
  induction s as [|c s IH]; simpl; [done|].
  destruct (slug_char c) eqn:Hc; simpl; [by rewrite Hc|done].
Qed.

Lemma remove_non_slug_id s :
  all_chars slug_char s = true → remove_non_slug s = s.
Proof.
  induction s as [|c s IH]; simpl; [done|].
  intros [-> Hs]%andb_prop. by rewrite IH.
Qed.

Lemma slug_chars_plain s : all_chars slug_char s = true → plain s = true.
Proof.
  induction s as [|c s IH]; simpl; [done|].
  intros [[Hsp Hlo]%slug_char_plain Hs]%andb_prop.
  by rewrite Hsp, Hlo, Ascii.eqb_refl, IH.
Qed.

Lemma dash_spaces_plain s : plain s = true → dash_spaces s = s.
Proof.
  induction s as [|c s IH]; [done|]. cbn [plain dash_spaces].
  intros [[Hc%negb_true_iff _]%andb_prop Hs]%andb_prop.
  by rewrite Hc, IH.
Qed.

(** X10.  A slug holds no character other than the lower-case letters
    [a]..[z], the digits and the dash, whatever the phone name. *)
Theorem slugify_phone_name_charset (name : string) :
  all_chars slug_char (slugify_phone_name name) = true.
Proof. apply remove_non_slug_chars. Qed.

(** X11.  Slugifying is idempotent: the slug of a slug is that slug. *)
Theorem slugify_phone_name_idempotent (name : string) :
  slugify_phone_name (slugify_phone_name name) = slugify_phone_name name.
Proof.
  pose proof (remove_non_slug_chars (dash_spaces (lower (strip name)))) as H.
  fold (slugify_phone_name name) in H.
  set (r := slugify_phone_name name) in *.
  pose proof (slug_chars_plain r H) as Hp.
  unfold slugify_phone_name at 1.
  by rewrite plain_strip, plain_lower, dash_spaces_plain, remove_non_slug_id.
Qed.

Lemma lower_char_idem c : lower_char (lower_char c) = lower_char c.
Proof. destruct c as [[] [] [] [] [] [] [] []]; reflexivity. Qed.

Lemma is_space_lower c : is_space (lower_char c) = is_space c.
Proof. destruct c as [[] [] [] [] [] [] [] []]; reflexivity. Qed.

Lemma lower_lower s : lower (lower s) = lower s.
Proof.
  induction s as [|c s IH]; simpl; [done|]. by rewrite lower_char_idem, IH.
Qed.

Lemma lstrip_lower s : lstrip (lower s) = lower (lstrip s).
Proof.
  induction s as [|c s IH]; simpl; [done|]. rewrite is_space_lower.
  by destruct (is_space c).
Qed.

Lemma rstrip_lower s : rstrip (lower s) = lower (rstrip s).
Proof.
  induction s as [|c s IH]; simpl; [done|]. rewrite IH, is_space_lower.
  destruct (rstrip s); simpl; [by destruct (is_space c)|done].
Qed.

Lemma strip_lower s : strip (lower s) = lower (strip s).
Proof. unfold strip. by rewrite lstrip_lower, rstrip_lower. Qed.

Lemma rstrip_idem s : rstrip (rstrip s) = rstrip s.
Proof.
  induction s as [|c s IH]; simpl; [done|].
  destruct (rstrip s) as [|d r] eqn:E.
  - destruct (is_space c) eqn:Hc; simpl; [done|]. by rewrite Hc.
  - cbn [rstrip] in *. by rewrite IH.
Qed.

Lemma lstrip_head s :
  match lstrip s with
  | "" => True
  | String c _ => is_space c = false
  end.
Proof.
  induction s as [|c s IH]; simpl; [done|].
  by destruct (is_space c) eqn:Hc.
Qed.

Lemma rstrip_keeps_head c s :
  is_space c = false → ∃ r, rstrip (String c s) = String c r.
Proof.
  intros Hc. simpl. destruct (rstrip s); rewrite ?Hc; eauto.
Qed.

Lemma strip_idem s : strip (strip s) = strip s.
Proof.
  unfold strip. pose proof (lstrip_head s) as Hh.
  destruct (lstrip s) as [|c t]; [done|].
  destruct (rstrip_keeps_head c t Hh) as [r Hr].
  rewrite Hr. cbn [lstrip]. rewrite Hh, <- Hr. apply rstrip_idem.
Qed.

(** X12.  The slug does not depend on the case of the letters nor on
    spaces around the name: lower-casing or stripping the name first gives
    the same slug. *)
Theorem slugify_phone_name_case_and_margin (name : string) :
  slugify_phone_name (lower name) = slugify_phone_name name
  ∧ slugify_phone_name (strip name) = slugify_phone_name name.
Proof.
  unfold slugify_phone_name. split.
  - by rewrite strip_lower, lower_lower.
  - by rewrite strip_idem.
Qed.

(** *** Specification documents *)

Lemma py_get_dict d k dflt :
  py_get (JDict d) k dflt = Returns (default dflt (dict_get k d)).
Proof. reflexivity. Qed.

Lemma parse_specs_dict d :
  parse_specs (JDict d) =
    if specs_ok (JDict d) then Returns (spec_row d) else Raises AttributeError.
Proof.
  unfold parse_specs, specs_ok, object_or_absent, spec_row, nested_field, field.
  rewrite !py_get_dict, !bind_Returns.
  destruct (dict_get "hardware" d) as [[]|];
    destruct (dict_get "battery" d) as [[]|];
    destruct (dict_get "screen" d) as [[]|]; reflexivity.
Qed.

(** X13.  Whenever [parse_specs] returns for a document other than
    [None], the row has exactly the nine fields brand, model, soc, ram,
    storage, battery_capacity, screen_size, screen_type and
    screen_resolution, in that order; each holds the document's value, taken
    from the top level ([model] from [name]) or from the [hardware],
    [battery] or [screen] object, and the empty text where the key is
    absent.  For [None] the row is empty. *)
Theorem parse_specs_row (j : json) (row : list (string * json)) :
  parse_specs j = Returns row →
  (j = JNull ∧ row = [])
  ∨ (∃ d, j = JDict d ∧ row = spec_row d ∧ map fst row = spec_keys).
Proof.
  destruct j as [| | | | | |d]; try done.
  - intros [= <-]. by left.
  - rewrite parse_specs_dict. destruct (specs_ok (JDict d)); [|done].
    intros [= <-]. right. by exists d.
Qed.

Lemma parse_specs_row_witness :
  parse_specs (JDict [("name", JStr "Pixel 9");
                      ("hardware", JDict [("ram", JInt 12)])])
  = Returns (spec_row [("name", JStr "Pixel 9");
                       ("hardware", JDict [("ram", JInt 12)])])
  ∧ nested_field [("name", JStr "Pixel 9");
                  ("hardware", JDict [("ram", JInt 12)])] "hardware" "ram"
    = JInt 12.
Proof.
  split; [|reflexivity].
  destruct (parse_specs_row
              (JDict [("name", JStr "Pixel 9");
                      ("hardware", JDict [("ram", JInt 12)])])
              _ eq_refl) as [[H _]|(d & Hd & -> & _)]; [discriminate H|].
  injection Hd as <-. reflexivity.
Defined.

(** X14.  [parse_specs] returns exactly for [None] and for an object whose
    [hardware], [battery] and [screen] fields are each absent or an object;
    for every other document it raises [AttributeError]: the [{}] default
    stands in for a missing key only, not for a null, a text or a list under
    that key, nor for a response that is not an object. *)
Theorem parse_specs_returns_iff (j : json) :
  if specs_ok j then ∃ row, parse_specs j = Returns row
  else parse_specs j = Raises AttributeError.
Proof.
  destruct j as [| | | | | |d]; try reflexivity.
  - simpl. eauto.
  - rewrite parse_specs_dict. destruct (specs_ok (JDict d)); eauto.
Qed.

Lemma parse_specs_null_field :
  parse_specs (JDict [("brand", JStr "Google"); ("hardware", JNull)])
  = Raises AttributeError.
Proof. reflexivity. Qed.

(** *** Price documents *)

Lemma mapM_Returns {A B} (f : A → outcome B) (g : A → B) l :
  Forall (λ x, f x = Returns (g x)) l → mapM f l = Returns (map g l).
Proof.
  induction 1 as [|x l Hx _ IH]; [done|].
  change (mapM f (x :: l)) with (y ← f x; k ← mapM f l; mret (y :: k)).
  by rewrite Hx, bind_Returns, IH.
Qed.

Lemma mapM_Raises {A B} (f : A → outcome B) (g : A → B) e l :
  Forall (λ x, f x = Returns (g x) ∨ f x = Raises e) l →
  Exists (λ x, f x = Raises e) l →
  mapM f l = Raises e.
Proof.
  induction 1 as [|x l Hx Hl IH]; intros Hex; [by apply Exists_nil in Hex|].
  change (mapM f (x :: l)) with (y ← f x; k ← mapM f l; mret (y :: k)).
  destruct Hx as [Hx|Hx]; rewrite Hx; [|done].
  rewrite bind_Returns.
  apply Exists_cons in Hex as [Hex|Hex]; [congruence|].
  by rewrite IH.
Qed.

Lemma price_entry_object e : price_entry (JDict e) = Returns (entry_row e).
Proof. reflexivity. Qed.

Lemma price_entry_other item :
  is_object item = false → price_entry item = Raises AttributeError.
Proof. by destruct item. Qed.

Lemma price_entry_cases item :
  price_entry item = Returns (entry_of item)
  ∨ price_entry item = Raises AttributeError.
Proof. destruct item; auto. Qed.

Lemma parse_prices_dict d :
  parse_prices (JDict d) = (items ← py_iter (chosen_offers d);
                            mapM price_entry items).
Proof.
  unfold parse_prices, chosen_offers. rewrite !py_get_dict, bind_Returns.
  by destruct (truthy (default (JList []) (dict_get "stores" d))).
Qed.

(** What [parse_prices] does with the offers of an object. *)
Lemma parse_prices_offers d :
  parse_prices (JDict d) =
    match py_iter (chosen_offers d) with
    | Raises e => Raises e
    | Returns items =>
        if forallb is_object items then Returns (map entry_of items)
        else Raises AttributeError
    end.
Proof.
  rewrite parse_prices_dict.
  destruct (py_iter (chosen_offers d)) as [items|e]; [|done].
  rewrite bind_Returns.
  destruct (forallb is_object items) eqn:Hall.
  - apply mapM_Returns, Forall_forall. intros item Hin.
    rewrite forallb_forall in Hall.
    specialize (Hall item (proj1 (list_elem_of_In _ _) Hin)).
    by destruct item.
  - apply (mapM_Raises _ entry_of).
    + apply Forall_forall. intros item _. apply price_entry_cases.
    + apply Exists_exists.
      assert (∃ x, In x items ∧ is_object x = false) as (x & Hx & Hf).
      { clear -Hall. induction items as [|a l IH]; [done|]. simpl in Hall.
        apply andb_false_iff in Hall as [Ha|Hl].
        - exists a. split; [by left|done].
        - destruct (IH Hl) as (x & ? & ?). exists x. split; [by right|done]. }
      exists x. split; [by apply list_elem_of_In|].
      by apply price_entry_other.
Qed.


Lemma parse_prices_returned d rows :
  parse_prices (JDict d) = Returns rows →
  ∃ items, py_iter (chosen_offers d) = Returns items
           ∧ forallb is_object items = true
           ∧ rows = map entry_of items.
Proof.
  rewrite parse_prices_offers.
  destruct (py_iter (chosen_offers d)) as [items|]; [|done].
  destruct (forallb is_object items) eqn:Hall; [|done].
  intros [= <-]. by exists items.
Qed.


(** X15.  Whenever [parse_prices] returns for an object, it returns one
    entry per offer, in the order of the offers; every offer is an object
    and its entry has exactly the fields shop, country, price, currency and
    url, in that order: [shop] is the offer's [shop], else its [name];
    [url] its [url], else its [link]; [currency] defaults to the euro sign
    and the others to the empty text. *)
Theorem parse_prices_entries (d : list (string * json))
    (rows : list (list (string * json))) :
  parse_prices (JDict d) = Returns rows →
  ∃ items,
    py_iter (chosen_offers d) = Returns items
    ∧ length rows = length items
    ∧ Forall2 (λ item row, ∃ e, item = JDict e ∧ row = entry_row e
                                ∧ map fst row = price_keys) items rows.
Proof.
  intros (items & Hit & Hall & ->)%parse_prices_returned.
  exists items. split_and!; [done|by rewrite length_map|].
  clear Hit. induction items as [|item items IH]; [constructor|].
  simpl in Hall. apply andb_prop in Hall as [Hitem Hall].
  cbn [map]. constructor; [|by apply IH].
  destruct item; try done. eauto.
Qed.

Lemma parse_prices_entries_witness :
  parse_prices (JDict [("stores", JList [JDict [("name", JStr "Shop A");
                                               ("price", JInt 799)]])])
  = Returns [entry_row [("name", JStr "Shop A"); ("price", JInt 799)]]
  ∧ entry_row [("name", JStr "Shop A"); ("price", JInt 799)]
    = [("shop", JStr "Shop A"); ("country", JStr ""); ("price", JInt 799);
       ("currency", JStr euro); ("url", JStr "")].
Proof.
  split; [|reflexivity].
  destruct (parse_prices_entries
              [("stores", JList [JDict [("name", JStr "Shop A");
                                        ("price", JInt 799)]])]
              _ eq_refl) as (items & Hit & _ & _).
  injection Hit as <-. reflexivity.
Defined.

(** X16.  When the document has a [stores] value that counts as true (a
    non-empty list, say), [parse_prices] reads the offers from it and
    ignores everything else in the document, [prices] included. *)
Theorem stores_take_precedence (d : list (string * json)) (v : json) :
  dict_get "stores" d = Some v → truthy v = true →
  parse_prices (JDict d) = parse_prices (JDict [("stores", v)]).
Proof.
  intros Hv Ht. rewrite !parse_prices_dict. unfold chosen_offers.
  rewrite Hv. simpl. by rewrite Ht.
Qed.

Lemma stores_take_precedence_witness :
  parse_prices (JDict [("prices", JList [JDict [("shop", JStr "B")]]);
                       ("stores", JList [JDict [("shop", JStr "A")]])])
  = parse_prices (JDict [("stores", JList [JDict [("shop", JStr "A")]])]).
Proof.
  exact (stores_take_precedence
           [("prices", JList [JDict [("shop", JStr "B")]]);
            ("stores", JList [JDict [("shop", JStr "A")]])]
           (JList [JDict [("shop", JStr "A")]]) eq_refl eq_refl).
Defined.

(** X17.  When [stores] is absent or counts as false (an empty list, a
    null, a zero, an empty text or object), the offers are read from
    [prices] alone, and there are none when [prices] is absent too. *)
Theorem prices_used_without_stores (d : list (string * json)) :
  truthy (default (JList []) (dict_get "stores" d)) = false →
  parse_prices (JDict d)
  = parse_prices (JDict (match dict_get "prices" d with
                         | Some p => [("prices", p)]
                         | None => []
                         end)).
Proof.
  intros Hf. rewrite !parse_prices_dict. unfold chosen_offers.
  rewrite Hf. by destruct (dict_get "prices" d).
Qed.

Lemma prices_used_without_stores_witness :
  parse_prices (JDict [("stores", JList []);
                       ("prices", JList [JDict [("shop", JStr "B")]])])
  = parse_prices (JDict [("prices", JList [JDict [("shop", JStr "B")]])]).
Proof.
  exact (prices_used_without_stores
           [("stores", JList []);
            ("prices", JList [JDict [("shop", JStr "B")]])] eq_refl).
Defined.

Lemma py_iter_raises v e : py_iter v = Raises e → e = NotIterable.
Proof. destruct v; simpl; congruence. Qed.

(** X18.  [parse_prices] returns the empty list for [None]; for a
    document that is neither [None] nor an object it raises
    [AttributeError]; for an object it raises the [TypeError] of a failed
    iteration when the chosen offers are a null, a boolean or a number,
    [AttributeError] when one of the offers is not an object, and returns
    otherwise. *)
Theorem parse_prices_returns_iff (j : json) :
  match j with
  | JNull => parse_prices j = Returns []
  | JDict d =>
      match py_iter (chosen_offers d) with
      | Raises _ => parse_prices j = Raises NotIterable
      | Returns items =>
          if forallb is_object items
          then parse_prices j = Returns (map entry_of items)
          else parse_prices j = Raises AttributeError
      end
  | _ => parse_prices j = Raises AttributeError
  end.
Proof.
  destruct j as [| | | | | |d]; try reflexivity.
  rewrite parse_prices_offers.
  destruct (py_iter (chosen_offers d)) as [items|e] eqn:E.
  - by destruct (forallb is_object items).
  - by rewrite (py_iter_raises _ _ E).
Qed.

Lemma parse_prices_null_prices :
  parse_prices (JDict [("prices", JNull)]) = Raises NotIterable
  ∧ parse_prices (JDict [("stores", JDict [("shop", JStr "A")])])
    = Raises AttributeError
  ∧ parse_prices (JList []) = Raises AttributeError.
Proof. repeat split. Qed.

(** *** Rows of a scrape *)







(** X20.  When neither document is found (both requests answer with a
    status other than 200), [scrape_kimovil_phone] still returns one row,
    and that row has no field at all. *)
Theorem scrape_kimovil_phone_not_found
    (http_get : string → outcome response) (phone_name : string) :
  (∀ url, ∃ r, http_get url = Returns r ∧ status_code r ≠ 200) →
  scrape_kimovil_phone http_get phone_name = Returns [[]].
Proof.
  intros Hnf. unfold scrape_kimovil_phone, get_phone_specs, get_phone_prices.
  cbv zeta.
  destruct (Hnf (BASE_JSON_URL +:+ "/" +:+ slugify_phone_name phone_name
                 +:+ ".json")) as (r1 & -> & H1).
  destruct (Hnf (BASE_JSON_URL +:+ "/" +:+ slugify_phone_name phone_name
                 +:+ "_prices_deals.json")) as (r2 & -> & H2).
  rewrite !bind_Returns.
  apply Z.eqb_neq in H1, H2. rewrite H1. cbn [negb]. rewrite bind_Returns.
  rewrite H2. cbn [negb]. by rewrite !bind_Returns.
Qed.

Lemma scrape_kimovil_phone_not_found_witness :
  scrape_kimovil_phone
    (λ _, Returns {| status_code := 404; resp_json := Raises JSONDecodeError |})
    "Google Pixel 9"
  = Returns [[]].
Proof.
  apply scrape_kimovil_phone_not_found.
  intros url. eexists. split; [reflexivity|]. cbn. discriminate.
Defined.

(** * Further properties of the cleaner, continued *)

Lemma run_cleaning_Ok_header df out :
  run_cleaning df = Ok out →
  header out = map (canonical_name (price_col df) (mileage_col df) (year_col df))
                   (kept_columns (columns df)).
Proof.
  intros ->%run_cleaning_Ok_stages. unfold rename_and_save. cbn [header columns].
  apply map_ext. intros c. apply rename_mapping_lookup.
Qed.







(** X22.  When the column bound to the price role is also the one bound to
    the mileage or the year role, it is not written under the name [price]:
    in the rename dictionary the later key wins, and the column is written
    as [mileage_km] or [year]. *)
Theorem shared_column_loses_price_name (df : DataFrame) (out : Csv) (i : nat) :
  run_cleaning df = Ok out →
  price_col df = mileage_col df ∨ price_col df = year_col df →
  kept_columns (columns df) !! i = Some (price_col df) →
  header out !! i = Some "mileage_km" ∨ header out !! i = Some "year".
Proof.
  intros ->%run_cleaning_Ok_header Hshared Hi.
  rewrite lookup_map, Hi. cbn [fmap option_fmap option_map].
  destruct (resolve_not_passthrough Price (kept_columns (columns df)))
    as (?&?&?).
  unfold canonical_name. fold (price_col df) in *.
  repeat case_decide; try done; try (by left); try (by right);
    destruct Hshared; congruence.
Qed.

Lemma shared_column_loses_price_name_witness :
  run_cleaning shared_table = Ok shared_output
  ∧ (header shared_output !! 0%nat = Some "mileage_km"
     ∨ header shared_output !! 0%nat = Some "year").
Proof.
  assert (run_cleaning shared_table = Ok shared_output) as Hrun
    by (vm_compute; reflexivity).
  split; [exact Hrun|].
  apply (shared_column_loses_price_name shared_table _ 0 Hrun).
  - left. vm_compute. reflexivity.
  - vm_compute. reflexivity.
Defined.

(** X23.  The three parsers ignore the case of letters and the spaces
    around the text: a text cell, its lower-cased form and its stripped form
    all parse to the same result. *)
Theorem parsers_ignore_case_and_margin (s : string) :
  (clean_price (CStr (lower s)) = clean_price (CStr s)
   ∧ clean_price (CStr (strip s)) = clean_price (CStr s))
  ∧ (clean_year (CStr (lower s)) = clean_year (CStr s)
     ∧ clean_year (CStr (strip s)) = clean_year (CStr s))
  ∧ (clean_mileage_range (CStr (lower s)) = clean_mileage_range (CStr s)
     ∧ clean_mileage_range (CStr (strip s)) = clean_mileage_range (CStr s)).
Proof.
  assert (strip (lower (lower s)) = strip (lower s)) as H1
    by by rewrite lower_lower.
  assert (strip (lower (strip s)) = strip (lower s)) as H2
    by by rewrite <- strip_lower, strip_idem.
  unfold clean_price, clean_year, clean_mileage_range. cbn [py_str].
  by rewrite H1, H2.
Qed.

Lemma endswith_no_dot z s :
  has_char "." s = false → endswith (String "." z) s = false.
Proof.
  induction s as [|c s IH]; [done|]. cbn [has_char endswith String.eqb].
  intros [Hc Hs]%orb_false_elim. rewrite Hc. cbn [andb]. auto.
Qed.

Lemma after_last_app_sep sep a b :
  has_char sep b = false → after_last sep (a +:+ String sep b) = b.
Proof.
  intros Hb. induction a as [|c a IH].
  - change (after_last sep (String sep b) = b). cbn [after_last].
    by rewrite Hb, Ascii.eqb_refl.
  - change (after_last sep (String c (a +:+ String sep b)) = b).
    cbn [after_last]. rewrite has_char_app. cbn [has_char].
    by rewrite Ascii.eqb_refl, orb_true_r.
Qed.

Lemma before_first_app_sep sep a b :
  has_char sep a = false → before_first sep (a +:+ String sep b) = a.
Proof.
  induction a as [|c a IH]; intros Ha.
  - change (before_first sep (String sep b) = ""). cbn [before_first].
    by rewrite Ascii.eqb_refl.
  - change (before_first sep (String c (a +:+ String sep b)) = String c a).
    cbn [has_char] in Ha. apply orb_false_elim in Ha as [Hc Ha].
    cbn [before_first]. by rewrite Hc, IH.
Qed.

(** X24.  For digit strings [a] and [b], the text [a,b] is read as [a]
    alone when [b] has exactly two digits (a cents group), and with the
    digits of [b] appended to those of [a] for any other length (a
    thousands separator): ["100,00"] gives 100, ["85,000"] gives 85000 and
    ["1,5"] gives 15. *)
Theorem clean_price_comma_group (a b : string) :
  all_digits a = true → all_digits b = true → a ≠ "" →
  clean_price (CStr (a +:+ "," +:+ b))
  = Ok (Some (if (String.length b =? 2)%nat then decimal_value a
              else decimal_value a * 10 ^ Z.of_nat (String.length b)
                   + decimal_value b)).
Proof.
  intros Ha Hb Hne.
  rewrite clean_price_eq. unfold price_first_comma. cbn [py_str].
  change ("," +:+ b) with (String "," b).
  rewrite plain_text
    by (rewrite plain_app; cbn [plain]; by rewrite !plain_digits).
  assert (has_char "." (a +:+ String "," b) = false) as Hdot.
  { rewrite has_char_app. cbn [has_char].
    change (Ascii.eqb "," ".") with false.
    by rewrite !(has_char_digits "."). }
  rewrite !endswith_no_dot by done.
  rewrite has_char_app. cbn [has_char]. rewrite Ascii.eqb_refl.
  cbn [orb]. rewrite orb_true_r. cbn [andb].
  rewrite after_last_app_sep by (by apply has_char_digits).
  rewrite before_first_app_sep by (by apply has_char_digits).
  destruct (String.length b =? 2)%nat.
  - by rewrite remove_non_digits_id, parse_digits_nonempty.
  - rewrite remove_non_digits_app. cbn [remove_non_digits].
    change (is_digit ",") with false. cbv iota.
    rewrite !remove_non_digits_id by done.
    rewrite parse_digits_nonempty by (by destruct a).
    rewrite decimal_value_horner by (by rewrite all_digits_app, Ha, Hb).
    by rewrite horner_app, horner_shift, <- !decimal_value_horner.
Qed.

Lemma clean_price_comma_group_witness :
  clean_price (CStr "100,00") = Ok (Some 100)
  ∧ clean_price (CStr "85,000") = Ok (Some 85000)
  ∧ clean_price (CStr "1,5") = Ok (Some 15).
Proof.
  split_and!.
  - exact (clean_price_comma_group "100" "00" eq_refl eq_refl
             ltac:(discriminate)).
  - exact (clean_price_comma_group "85" "000" eq_refl eq_refl
             ltac:(discriminate)).
  - exact (clean_price_comma_group "1" "5" eq_refl eq_refl
             ltac:(discriminate)).
Defined.
